(** * VendorIQ server: score extraction, identity check and session roll-up

    A shallow embedding of the two variants of the review service,
    [src/server.js] and [src/unnamed/part_001], and the properties of the
    score parser, the identity check, the review handler and the session
    aggregator that the specification states about them.

    Conventions.
    - A JavaScript string is a list of code units.  The model keeps the code
      units below 256 ([ascii]); on those, [toLowerCase], [trim], [\s], [\w],
      [\d] and the [i] flag behave as written below.
    - A JavaScript number is a binary64 float ([PrimFloat.float]).
    - A regular expression literal of the source is a [regex] term; matching
      is the backtracking search of the language (leftmost match, greedy
      quantifiers, alternatives tried in order). *)

From Stdlib Require Import List Bool Arith ZArith Lia Ascii String.
From Stdlib Require PrimFloat FloatOps SpecFloat Uint63.
Import ListNotations.

Set Implicit Arguments.

(** ** Strings *)

Definition text := list ascii.

Definition lit (s : string) : text := list_ascii_of_string s.
Arguments lit s%_string.

(** [s.length] *)
Definition len (s : text) : nat := List.length s.

Definition code (c : ascii) : nat := nat_of_ascii c.

Definition between (lo hi : nat) (c : ascii) : bool :=
  (lo <=? code c) && (code c <=? hi).

Definition is_char (x : ascii) (c : ascii) : bool := Ascii.eqb c x.

Definition isDigit (c : ascii) : bool := between 48 57 c.
Definition isUpper (c : ascii) : bool := between 65 90 c.
Definition isLower (c : ascii) : bool := between 97 122 c.
Definition isAlpha (c : ascii) : bool := isUpper c || isLower c.

(** [\w] *)
Definition isWord (c : ascii) : bool :=
  isAlpha c || isDigit c || (code c =? 95).

(** [\s], which is also what [trim] strips: TAB LF VT FF CR SP NBSP. *)
Definition isSpace (c : ascii) : bool :=
  between 9 13 c || (code c =? 32) || (code c =? 160).

(** Line terminators, which [.] does not match. *)
Definition isLineTerminator (c : ascii) : bool :=
  (code c =? 10) || (code c =? 13).

Definition dot (c : ascii) : bool := negb (isLineTerminator c).

(** [toLowerCase] on one code unit: A-Z, and the Latin-1 capitals
    U+00C0..U+00DE except the multiplication sign U+00D7. *)
Definition lower (c : ascii) : ascii :=
  if isUpper c || (between 192 222 c && negb (code c =? 215))
  then ascii_of_nat (code c + 32) else c.

(** ASCII upper-casing, the canonical form the [i] flag compares. *)
Definition upper (c : ascii) : ascii :=
  if isLower c then ascii_of_nat (code c - 32) else c.

Definition toLowerCase (s : text) : text := map lower s.

(** A literal pattern character under the [i] flag. *)
Definition ci (x : ascii) (c : ascii) : bool := Ascii.eqb (upper c) (upper x).

Fixpoint text_eqb (a b : text) : bool :=
  match a, b with
  | [], [] => true
  | x :: a', y :: b' => Ascii.eqb x y && text_eqb a' b'
  | _, _ => false
  end.

Fixpoint startsWith (w s : text) : bool :=
  match w, s with
  | [], _ => true
  | x :: w', c :: s' => Ascii.eqb c x && startsWith w' s'
  | _ :: _, [] => false
  end.

(** [s.includes(w)] *)
Fixpoint includes (w s : text) : bool :=
  startsWith w s ||
  match s with
  | [] => false
  | _ :: s' => includes w s'
  end.

Fixpoint trimStart (s : text) : text :=
  match s with
  | c :: s' => if isSpace c then trimStart s' else s
  | [] => []
  end.

Definition trimEnd (s : text) : text := rev (trimStart (rev s)).

Definition trim (s : text) : text := trimEnd (trimStart s).

(** [s.split(sep)] for a one-character separator. *)
Fixpoint split_on (sep : ascii) (s : text) : list text :=
  match s with
  | [] => [[]]
  | c :: s' =>
      if Ascii.eqb c sep then [] :: split_on sep s'
      else match split_on sep s' with
           | l :: ls => (c :: l) :: ls
           | [] => [[c]]
           end
  end.

Definition LF : ascii := ascii_of_nat 10.
Definition SP : ascii := ascii_of_nat 32.
Definition dquote : text := [ascii_of_nat 34].

(** ** Regular expressions *)

Inductive regex : Type :=
| Eps
| Chr (p : ascii -> bool)
| Seq (r1 r2 : regex)
| Alt (r1 r2 : regex)
| Rep (p : ascii -> bool) (lo : nat) (hi : option nat)
| Group (i : nat) (r : regex)
| Eol.

Definition seqs (l : list regex) : regex := fold_right Seq Eps l.
Definition alts (l : list regex) : regex := fold_right Alt (Chr (fun _ => false)) l.
Definition opt (r : regex) : regex := Alt r Eps.
Definition star (p : ascii -> bool) : regex := Rep p 0 None.
Definition plus (p : ascii -> bool) : regex := Rep p 1 None.
Definition chr (x : string) : regex :=
  match x with
  | String c _ => Chr (is_char c)
  | EmptyString => Eps
  end.
Arguments chr x%_string.
(** A literal, case-sensitive and under the [i] flag. *)
Definition str (s : string) : regex := seqs (map (fun x => Chr (is_char x)) (lit s)).
Definition str_i (s : string) : regex := seqs (map (fun x => Chr (ci x)) (lit s)).
Arguments str s%_string.
Arguments str_i s%_string.

(** The positions, counted from the start of the match, that a capture
    group spans. *)
Definition captures := list (nat * (nat * nat)).

Section Matcher.
Variable R : Type.

(** Greedy bounded repetition of a character class: take as many
    characters as allowed, give back one at a time. *)
Fixpoint rep_greedy (p : ascii -> bool) (lo : nat) (hi : option nat)
    (s : text) (n : nat) (k : text -> nat -> option R) : option R :=
  let stop := if lo =? 0 then k s n else None in
  match s with
  | c :: s' =>
      if p c && match hi with Some 0 => false | _ => true end then
        match rep_greedy p (pred lo) (option_map pred hi) s' (S n) k with
        | Some r => Some r
        | None => stop
        end
      else stop
  | [] => stop
  end.

Fixpoint rmatch (r : regex) (s : text) (n : nat) (cs : captures)
    (k : text -> nat -> captures -> option R) : option R :=
  match r with
  | Eps => k s n cs
  | Chr p =>
      match s with
      | c :: s' => if p c then k s' (S n) cs else None
      | [] => None
      end
  | Seq r1 r2 => rmatch r1 s n cs (fun s' n' cs' => rmatch r2 s' n' cs' k)
  | Alt r1 r2 =>
      match rmatch r1 s n cs k with
      | Some x => Some x
      | None => rmatch r2 s n cs k
      end
  | Rep p lo hi => rep_greedy p lo hi s n (fun s' n' => k s' n' cs)
  | Group i r1 => rmatch r1 s n cs (fun s' n' cs' => k s' n' ((i, (n, n')) :: cs'))
  | Eol =>
      match s with
      | [] => k s n cs
      | _ :: _ => None
      end
  end.
End Matcher.

(** A successful match: its length and the text of its groups, group 0
    being the whole match. *)
Record rmatch_result : Type := MkMatch {
  m_length : nat;
  m_groups : list (nat * text)
}.

Definition slice (s : text) (span : nat * nat) : text :=
  firstn (snd span - fst span) (skipn (fst span) s).

Definition match_here (r : regex) (s : text) : option rmatch_result :=
  rmatch r s 0 []
    (fun _ n cs =>
       Some (MkMatch n ((0, firstn n s) :: map (fun g => (fst g, slice s (snd g))) cs))).

Fixpoint lookup (i : nat) (gs : list (nat * text)) : option text :=
  match gs with
  | [] => None
  | (j, t) :: gs' => if i =? j then Some t else lookup i gs'
  end.

Definition group (m : rmatch_result) (i : nat) : option text :=
  lookup i (m_groups m).

(** [s.match(re)] and [re.test(s)] for a regex without the [g] flag: the
    leftmost match. *)
Fixpoint search (r : regex) (s : text) : option rmatch_result :=
  match match_here r s with
  | Some m => Some m
  | None =>
      match s with
      | [] => None
      | _ :: s' => search r s'
      end
  end.

(** [re.test(s)] for a pattern that starts with [^]. *)
Definition test_anchored (r : regex) (s : text) : bool :=
  match match_here r s with Some _ => true | None => false end.

(** The loop [while ((m = re.exec(s)))] for a regex with the [g] flag: every
    match, left to right, each search resuming where the last match ended
    ([skip] counts the characters of the last match still to pass over).
    The patterns it is used with never match the empty string. *)
Fixpoint exec_all (r : regex) (s : text) (skip : nat) : list rmatch_result :=
  match skip with
  | S j =>
      match s with
      | [] => []
      | _ :: s' => exec_all r s' j
      end
  | 0 =>
      match match_here r s with
      | Some m =>
          m :: match s with
               | [] => []
               | _ :: s' => exec_all r s' (pred (m_length m))
               end
      | None =>
          match s with
          | [] => []
          | _ :: s' => exec_all r s' 0
          end
      end
  end.

(** ** Numbers *)

Definition digit_val (c : ascii) : Z := Z.of_nat (code c - 48).

(** The value of a string of decimal digits. *)
Definition decimal (s : text) : Z :=
  fold_left (fun acc c => (10 * acc + digit_val c)%Z) s 0%Z.

(** A JavaScript number. *)
Definition float : Set := PrimFloat.float.

(** An integer below 2^53 as a number. *)
Definition num (z : Z) : float :=
  if (z <? 0)%Z then PrimFloat.opp (PrimFloat.of_uint63 (Uint63.of_Z (- z)))
  else PrimFloat.of_uint63 (Uint63.of_Z z).

(** [Math.round]: the integer nearest to [x], a tie going up. *)
Definition Math_round (x : float) : float :=
  match FloatOps.Prim2SF x with
  | SpecFloat.S754_finite sg m e =>
      if (0 <=? e)%Z then x
      else
        let d := (2 ^ (- e))%Z in
        let v := if sg then (- Z.pos m)%Z else Z.pos m in
        let n := ((2 * v + d) / (2 * d))%Z in
        if (n =? 0)%Z then (if sg then PrimFloat.neg_zero else PrimFloat.zero)
        else num n
  | _ => x
  end.

(** ** Score Parser *)

(** The pattern of the review handler, flag [i]:
    [Score: \s* ( Stretch|Commitment|Robust|Warning|Offtrack ) \s* \( ( \d ) \/5 \)] *)
Definition scoreRegex : regex :=
  seqs [ str_i "Score:"; star isSpace;
         Group 1 (alts [str_i "Stretch"; str_i "Commitment"; str_i "Robust";
                        str_i "Warning"; str_i "Offtrack"]);
         star isSpace; chr "("; Group 2 (Chr isDigit); str "/5)" ].

(** The score the review handler reports for the model's reply:
    [parseInt(match[2], 10)], or [null]. *)
Definition parseScore (feedback : text) : option Z :=
  match search scoreRegex feedback with
  | Some m =>
      match group m 2 with
      | Some d => Some (decimal d)
      | None => None
      end
  | None => None
  end.

(** The pattern of [extractAllScores], flags [gi]:
    [Score: \s* (?: \w+ \s* )? \(? ( \d{1,3} ) \/? 5? \)?] *)
Definition allScoresRegex : regex :=
  seqs [ str_i "Score:"; star isSpace;
         opt (Seq (plus isWord) (star isSpace));
         opt (chr "("); Group 1 (Rep isDigit 1 (Some 3));
         opt (chr "/"); opt (chr "5"); opt (chr ")") ].

(** [extractAllScores(feedbackText)]; the argument is [null] for a row that
    has no review text. *)
Definition extractAllScores (feedbackText : option text) : list Z :=
  match feedbackText with
  | None => []
  | Some t =>
      if match t with [] => true | _ => false end then []
      else
        flat_map (fun m => match group m 1 with
                           | Some d => match d with
                                       | [] => []
                                       | _ => [decimal d]
                                       end
                           | None => []
                           end)
                 (exec_all allScoresRegex t 0)
  end.


(** ** Identity Consistency Checker *)

(** [replace(re, repl)] for a regex with the [g] flag. *)
Fixpoint replace_all (r : regex) (repl : text) (s : text) (skip : nat) : text :=
  match skip with
  | S j =>
      match s with
      | [] => []
      | _ :: s' => replace_all r repl s' j
      end
  | 0 =>
      match match_here r s with
      | Some m =>
          match m_length m with
          | S j =>
              repl ++ match s with
                      | [] => []
                      | _ :: s' => replace_all r repl s' j
                      end
          | 0 =>
              repl ++ match s with
                      | [] => []
                      | c :: s' => c :: replace_all r repl s' 0
                      end
          end
      | None =>
          match s with
          | [] => []
          | c :: s' => c :: replace_all r repl s' 0
          end
      end
  end.

(** The class [[a-z0-9 ]] under the [i] flag, and [[a-z0-9]] without it. *)
Definition alnum_space_i (c : ascii) : bool := isAlpha c || isDigit c || is_char SP c.
Definition alnum (c : ascii) : bool := isLower c || isDigit c.

(** The alternation [(private|pvt|limited|ltd|inc|corp|company|co|plc)]. *)
Definition suffixRegex : regex :=
  Group 1 (alts [str "private"; str "pvt"; str "limited"; str "ltd"; str "inc";
                 str "corp"; str "company"; str "co"; str "plc"]).

(** [normalizeCompanyName] of part_001. *)
Definition normalizeCompanyName (s : text) : text :=
  let s1 := toLowerCase s in
  let s2 := replace_all suffixRegex [] s1 0 in
  let s3 := filter alnum s2 in
  replace_all (plus isSpace) [] s3 0.

(** The candidate lines of part_001 and its comparison: the lines naming
    "metro" and "telwork", then the registered name itself. *)
Definition candidateNames (docText officialCompanyName : text) : list text :=
  let lines :=
    filter (fun l => 4 <? len l) (map trim (split_on LF docText)) in
  filter (fun l =>
            includes (lit "metro") (toLowerCase l) &&
            (includes (lit "telwork") (toLowerCase l) ||
             includes (lit "telworks") (toLowerCase l)))
         lines
  ++ [officialCompanyName].

Definition hasMatch (docText officialCompanyName : text) : bool :=
  let normalizedAuth := normalizeCompanyName officialCompanyName in
  existsb (fun l => text_eqb (normalizeCompanyName l) normalizedAuth)
          (candidateNames docText officialCompanyName).

(** The token-overlap check of server.js: [matchCount] against
    [Math.min(2, supplierWords.length)]. *)
Definition supplierWords (supplier_name : text) : list text :=
  let supplierName := filter alnum_space_i (toLowerCase (trim supplier_name)) in
  filter (fun w => 2 <? len w) (split_on SP supplierName).

Definition matchCount (docText supplier_name : text) : nat :=
  let docTextNorm := filter alnum_space_i (toLowerCase docText) in
  List.length (filter (fun word => includes word docTextNorm) (supplierWords supplier_name)).

Definition tokenMatch (docText supplier_name : text) : bool :=
  negb (matchCount docText supplier_name
        <? Nat.min 2 (List.length (supplierWords supplier_name))).

(** *** Company-name extraction (server.js) *)

(** [(?:company name|supplier) [:\-] \s* (.+) $], flag [i]. *)
Definition labelRegex : regex :=
  seqs [ Alt (str_i "company name") (str_i "supplier");
         Chr (fun c => is_char ":" c || is_char "-" c);
         star isSpace; Group 1 (plus dot); Eol ].

(** The class of the entity pattern under the [i] flag: letters, digits,
    space, full stop, comma, ampersand, parentheses, both quote marks and
    the hyphen. *)
Definition entityTail (c : ascii) : bool :=
  isAlpha c || isDigit c || is_char SP c || is_char "." c || is_char "," c ||
  is_char "&" c || is_char "(" c || is_char ")" c || is_char "'" c ||
  (code c =? 34) || is_char "-" c.

(** The pattern anchored at the line start: a legal-entity token, white
    space, then two or more characters of [entityTail] up to the line end. *)
Definition entityRegex : regex :=
  seqs [ Group 1 (alts [str_i "PT"; str_i "CV"; str_i "UD"; str_i "PD";
                        str_i "PERUSAHAAN"; str_i "COMPANY"; str_i "CORP";
                        str_i "CORPORATION"; str_i "INC";
                        Seq (str_i "CO") (opt (chr "."));
                        str_i "LTD"; str_i "LLC"; str_i "S.A."; str_i "Tbk"]);
         plus isSpace; Rep entityTail 2 None; Eol ].

(** [^ [a-zA-Z\s.]+ $] *)
Definition alphabeticRegex : regex :=
  seqs [ plus (fun c => isAlpha c || isSpace c || is_char "." c); Eol ].

Fixpoint first_some (A B : Type) (f : A -> option B) (l : list A) : option B :=
  match l with
  | [] => None
  | x :: l' => match f x with Some y => Some y | None => first_some f l' end
  end.

Definition nonempty (s : text) : bool :=
  match s with [] => false | _ :: _ => true end.

Definition extractCompanyName (docText : text) : text :=
  let lines := filter (fun l => 2 <? len l) (map trim (split_on LF docText)) in
  match first_some (fun line =>
                      match search labelRegex line with
                      | Some m =>
                          match group m 1 with
                          | Some g => if nonempty g then Some (trim g) else None
                          | None => None
                          end
                      | None => None
                      end) lines with
  | Some name => name
  | None =>
  match find (test_anchored entityRegex) lines with
  | Some line => line
  | None =>
  match find (fun line => (2 <=? List.length (split_on SP line)) &&
                          test_anchored alphabeticRegex line) lines with
  | Some line => line
  | None => hd [] lines
  end end end.

(** ** Requests, responses and the stores *)

(** A JSON value, as [res.json] sends it and [JSON.parse] returns it. *)
#[local] Unset Elimination Schemes.
Inductive json : Type :=
| JNull
| JBool (b : bool)
| JNum (x : float)
| JStr (s : text)
| JArr (l : list json)
| JObj (fields : list (string * json)).
#[local] Set Elimination Schemes.

Fixpoint field (k : string) (fields : list (string * json)) : option json :=
  match fields with
  | [] => None
  | (k', v) :: fs => if String.eqb k k' then Some v else field k fs
  end.

(** [j.k], [undefined] being [None]. *)
Definition get (k : string) (j : json) : option json :=
  match j with
  | JObj fs => field k fs
  | _ => None
  end.

(** [!!v] *)
Definition truthy (v : option json) : bool :=
  match v with
  | None | Some JNull => false
  | Some (JBool b) => b
  | Some (JNum x) => negb (PrimFloat.eqb x PrimFloat.zero) && PrimFloat.eqb x x
  | Some (JStr s) => nonempty s
  | Some (JArr _) | Some (JObj _) => true
  end.

Record Response : Type := MkResponse {
  status : nat;
  body : json
}.

(** A row of [answers]. *)
Record Answer : Type := MkAnswer {
  a_email : text;
  question_number : Z;
  answer : option text;
  upload_feedback : option text;
  skip_reason : option text;
  updated_at : option text
}.

(** A row of [sessions]. *)
Record Session : Type := MkSession {
  s_email : text;
  gemini_summary : json;
  gemini_score : json
}.

(** What a handler can read and change: the three tables, the files under
    [tmp/], and the prompts sent to the model so far, latest first. *)
Record World : Type := MkWorld {
  supplier_names : list (text * text);
  answers : list Answer;
  sessions : list Session;
  tmp_files : list text;
  groq_calls : list text
}.

Record UploadedFile : Type := MkFile {
  path : text;
  originalname : text
}.

(** The body and file of a [/api/check-file] request. *)
Record CheckRequest : Type := MkCheckRequest {
  email : text;
  questionNumber : option text;
  userExplanation : option text;
  ocrLang : option text;
  file : option UploadedFile
}.

(** The outcome of an awaited call: a value, or a thrown error with its
    message. *)
Inductive res (A : Type) : Type :=
| Ok (a : A)
| Err (message : text).
Arguments Ok {A} a.
Arguments Err {A} message.

(** The collaborators a handler calls and the text it does not compute:
    text extraction, the model, [JSON.parse], the clock, the template of the
    review prompt (a function of the values interpolated into it), and
    [summaryPrompt]: the summary prompt as the loop over the answers leaves
    it, before the closing request is added. *)
Record Env : Type := MkEnv {
  extractText : text -> text -> option text -> res text;
  callGroq : text -> res text;
  JSON_parse : text -> res json;
  now : text;
  reviewPrompt : Z -> text -> option text -> option text -> text;
  summaryPrompt : list Answer -> text
}.

(** ** The handler monad: state, early return and exceptions *)

Record HState : Type := MkHState {
  world : World;
  sent : option Response
}.

Inductive step (A : Type) : Type :=
| Next (a : A)
| Finish
| Raise (e : text).
Arguments Next {A} a.
Arguments Finish {A}.
Arguments Raise {A} e.

Definition M (A : Type) : Type := HState -> step A * HState.

Definition ret (A : Type) (a : A) : M A := fun st => (Next a, st).

Definition bind (A B : Type) (m : M A) (f : A -> M B) : M B :=
  fun st =>
    match m st with
    | (Next a, st') => f a st'
    | (Finish, st') => (Finish, st')
    | (Raise e, st') => (Raise e, st')
    end.

Declare Scope handler_scope.
Delimit Scope handler_scope with handler.
Notation "x <- m ;; k" := (bind m (fun x => k))
  (at level 61, m at next level, right associativity) : handler_scope.
Notation "m ;; k" := (bind m (fun _ => k))
  (at level 61, right associativity) : handler_scope.
Open Scope handler_scope.

Definition await (A : Type) (r : res A) : M A :=
  fun st => match r with
            | Ok a => (Next a, st)
            | Err e => (Raise e, st)
            end.

Definition raise (A : Type) (e : text) : M A := fun st => (Raise e, st).

Definition finish (A : Type) : M A := fun st => (Finish, st).

(** [res.status(code).json(b)] *)
Definition respond (code : nat) (b : json) : M unit :=
  fun st =>
    match sent st with
    | None => (Next tt, MkHState (world st) (Some (MkResponse code b)))
    | Some _ => (Raise (lit "Cannot set headers after they are sent to the client"), st)
    end.

(** [return res.status(code).json(b)] *)
Definition return_json (A : Type) (code : nat) (b : json) : M A :=
  respond code b ;; finish A.

Definition try_catch (body : M unit) (handler : text -> M unit) : M unit :=
  fun st =>
    match body st with
    | (Raise e, st') => handler e st'
    | r => r
    end.

Definition read : M World := fun st => (Next (world st), st).

Definition modify (f : World -> World) : M unit :=
  fun st => (Next tt, MkHState (f (world st)) (sent st)).

(** What a run of a handler leaves: the response sent, the stores, and the
    error of a rejected handler promise, if any. *)
Record Outcome : Type := MkOutcome {
  response : option Response;
  final : World;
  rejected : option text
}.

Definition run (h : M unit) (w : World) : Outcome :=
  match h (MkHState w None) with
  | (Raise e, st) => MkOutcome (sent st) (world st) (Some e)
  | (_, st) => MkOutcome (sent st) (world st) None
  end.

(** *** Store and file operations *)

Fixpoint assoc (k : text) (l : list (text * text)) : option text :=
  match l with
  | [] => None
  | (k', v) :: l' => if text_eqb k' k then Some v else assoc k l'
  end.

(** [from("supplier_names").select("supplier_name").eq("email", e).single()] *)
Definition select_supplier_name (e : text) : M (option text) :=
  w <- read ;; ret (assoc e (supplier_names w)).

Definition same_key (e : text) (q : Z) (r : Answer) : bool :=
  text_eqb (a_email r) e && (question_number r =? q)%Z.

(** [upsert({email, question_number, upload_feedback, updated_at})] on the
    key (email, question_number). *)
Fixpoint upsert_feedback (e : text) (q : Z) (fb stamp : text) (rows : list Answer)
    : list Answer :=
  match rows with
  | [] => [MkAnswer e q None (Some fb) None (Some stamp)]
  | r :: rows' =>
      if same_key e q r
      then MkAnswer e q (answer r) (Some fb) (skip_reason r) (Some stamp) :: rows'
      else r :: upsert_feedback e q fb stamp rows'
  end.

Definition set_answers (f : list Answer -> list Answer) (w : World) : World :=
  MkWorld (supplier_names w) (f (answers w)) (sessions w) (tmp_files w) (groq_calls w).

Definition set_sessions (f : list Session -> list Session) (w : World) : World :=
  MkWorld (supplier_names w) (answers w) (f (sessions w)) (tmp_files w) (groq_calls w).

Fixpoint insert_by_number (r : Answer) (rows : list Answer) : list Answer :=
  match rows with
  | [] => [r]
  | r' :: rows' =>
      if (question_number r <? question_number r')%Z then r :: rows
      else r' :: insert_by_number r rows'
  end.

(** The rows of [e], in ascending order of question number. *)
Definition answers_of (e : text) (w : World) : list Answer :=
  fold_right insert_by_number []
    (filter (fun r => text_eqb (a_email r) e) (answers w)).

(** [select("*").eq("email", e).order("question_number", {ascending: true})] *)
Definition select_answers (e : text) : M (list Answer) :=
  w <- read ;; ret (answers_of e w).

(** [from("sessions").update({gemini_summary, gemini_score}).eq("email", e)] *)
Definition update_session (e : text) (summary score : json) : M unit :=
  modify (set_sessions
            (map (fun s => if text_eqb (s_email s) e
                           then MkSession (s_email s) summary score else s))).

Definition remove_file (p : text) (files : list text) : list text :=
  filter (fun f => negb (text_eqb f p)) files.

(** [fs.unlinkSync(p)] *)
Definition unlinkSync (p : text) : M unit :=
  w <- read ;;
  if existsb (text_eqb p) (tmp_files w)
  then modify (fun w => MkWorld (supplier_names w) (answers w) (sessions w)
                                (remove_file p (tmp_files w)) (groq_calls w))
  else raise unit (lit "ENOENT: no such file or directory").

(** A call of the model: the prompt is sent, then the reply awaited. *)
Definition groq (env : Env) (prompt : text) : M text :=
  modify (fun w => MkWorld (supplier_names w) (answers w) (sessions w)
                           (tmp_files w) (prompt :: groq_calls w)) ;;
  await (callGroq env prompt).

(** *** [parseInt] *)

Definition hex_val (c : ascii) : option Z :=
  if isDigit c then Some (Z.of_nat (code c - 48))
  else if between 97 102 (lower c) then Some (Z.of_nat (code (lower c) - 87))
  else None.

Fixpoint digits_prefix (radix : Z) (s : text) (acc : option Z) : option Z :=
  match s with
  | c :: s' =>
      match hex_val c with
      | Some d =>
          if (d <? radix)%Z
          then digits_prefix radix s'
                 (Some (radix * match acc with Some a => a | None => 0 end + d)%Z)
          else acc
      | None => acc
      end
  | [] => acc
  end.

(** The number an integer becomes, a JavaScript number being a binary64
    float: the nearest one, a tie going to the even significand. Integers
    of magnitude up to 2^53 are numbers as they are; above, the last bits
    are rounded away, and a magnitude that rounds to 2^1024 or more is
    [Infinity], for which [infinity] stands: a number that is truthy and
    equal to no question number, which the handlers hand to the store as
    they hand it any other. *)
Definition infinity : Z := (2 ^ 1024)%Z.

Definition binary64 (n : Z) : Z :=
  let a := Z.abs n in
  if (a <=? 2 ^ 53)%Z then n
  else
    let e := (Z.log2 a - 52)%Z in
    let q := Z.shiftr a e in
    let r := (a - Z.shiftl q e)%Z in
    let half := Z.shiftl 1 (e - 1) in
    let q' := if (r <? half)%Z then q
              else if (half <? r)%Z then (q + 1)%Z
              else if Z.even q then q else (q + 1)%Z in
    let v := Z.shiftl q' e in
    let v' := if (infinity <=? v)%Z then infinity else v in
    if (n <? 0)%Z then (- v')%Z else v'.

(** [parseInt(s)] with no radix: white space, a sign, [0x] for radix 16,
    then the longest run of digits, read as a number. [None] is [NaN]. *)
Definition parseInt (v : option text) : option Z :=
  match v with
  | None => None
  | Some s =>
      let s1 := trimStart s in
      let (neg, s2) :=
        match s1 with
        | c :: s' => if is_char "-" c then (true, s')
                     else if is_char "+" c then (false, s') else (false, s1)
        | [] => (false, s1)
        end in
      let magnitude :=
        match s2 with
        | z :: x :: s' =>
            if is_char "0" z && is_char "x" (lower x)
            then digits_prefix 16 s' None
            else digits_prefix 10 s2 None
        | _ => digits_prefix 10 s2 None
        end in
      option_map (fun m => binary64 (if neg then (- m)%Z else m)) magnitude
  end.

Definition obj_feedback (success : bool) (msg : text) : json :=
  JObj [("success"%string, JBool success); ("feedback"%string, JStr msg)].

Definition score_json (score : option Z) : json :=
  match score with
  | Some z => JNum (num z)
  | None => JNull
  end.

Definition unreadable_message : text :=
  lit "Your document could not be read. Please upload a clear, readable file (PDF, Word, or image) with visible content.".

(** The request that closes the summary prompt, asking for a summary of
    under [sentences] sentences. *)
Definition summary_request (sentences : text) : text :=
  [LF] ++ lit "Summarize this supplier's OHS compliance in under " ++ sentences
  ++ lit " sentences. List strengths, weaknesses, and give a score (0-100). Return JSON with "
  ++ dquote ++ lit "feedback" ++ dquote ++ lit " and "
  ++ dquote ++ lit "score" ++ dquote ++ lit ".".

(** ** The service of server.js *)

Module Server.

(** The identity step of [/api/check-file]: question 1 answers with the
    detected name; any other question is held to the supplier's name. *)
Definition identity_step (req : CheckRequest) (qNum : Z) (docText : text) : M unit :=
  if (qNum =? 1)%Z then
    let companyName := extractCompanyName docText in
    return_json unit 200
      (JObj [("success"%string, JBool true);
             ("feedback"%string,
              JStr (lit "Detected company name: " ++ dquote ++ companyName ++ dquote
                    ++ lit ". Please confirm or correct this."));
             ("detectedCompanyName"%string, JStr companyName);
             ("requireCompanyNameConfirmation"%string, JBool true)])
  else
    data <- select_supplier_name (email req) ;;
    match data with
    | Some supplier_name =>
        if nonempty supplier_name then
          if tokenMatch docText supplier_name then ret tt
          else
            return_json unit 200
              (JObj [("success"%string, JBool false);
                     ("feedback"%string,
                      JStr (lit "Document does not clearly mention the supplier name detected from your OHS Policy: "
                            ++ dquote ++ supplier_name ++ dquote
                            ++ lit ". Please check or correct your company name. [You can manually set your company name if this keeps happening.]"));
                     ("requireCompanyNameConfirmation"%string, JBool true);
                     ("detectedCompanyName"%string, JStr supplier_name)])
        else
          return_json unit 200 (obj_feedback false
            (lit "No official supplier/company name was found from your OHS Policy (Q1R1). Please upload it first, or ensure your document clearly states your company name."))
    | None =>
        return_json unit 200 (obj_feedback false
          (lit "No official supplier/company name was found from your OHS Policy (Q1R1). Please upload it first, or ensure your document clearly states your company name."))
    end.

Definition check_file (env : Env) (req : CheckRequest) : M unit :=
  try_catch
    (match file req with
     | None => return_json unit 200 (obj_feedback false (lit "No file uploaded."))
     | Some f =>
         match parseInt (questionNumber req) with
         | None | Some 0%Z =>
             return_json unit 200
               (obj_feedback false (lit "Invalid or missing question number."))
         | Some qNum =>
             docText <- await (extractText env (path f) (originalname f) None) ;;
             unlinkSync (path f) ;;
             if negb (nonempty docText) || negb (nonempty (trim docText))
             then return_json unit 200 (obj_feedback false unreadable_message)
             else
               identity_step req qNum docText ;;
               feedback <- groq env (reviewPrompt env qNum docText (userExplanation req) None) ;;
               let score := parseScore feedback in
               modify (set_answers (upsert_feedback (email req) qNum feedback (now env))) ;;
               respond 200 (JObj [("success"%string, JBool true);
                                  ("score"%string, score_json score);
                                  ("feedback"%string, JStr feedback)])
         end
     end)
    (fun err => respond 500 (JObj [("error"%string, JStr err)])).

(** [\{ [\s\S]* \}] and [score \s* [:=] \s* ( \d{1,3} )] with flag [i]. *)
Definition braceRegex : regex := seqs [chr "{"; star (fun _ => true); chr "}"].
Definition scoreFieldRegex : regex :=
  seqs [ str_i "score"; star isSpace;
         Chr (fun c => is_char ":" c || is_char "=" c);
         star isSpace; Group 1 (Rep isDigit 1 (Some 3)) ].

(** The [try] block that reads the model's summary: the feedback and the
    score it leaves. *)
Definition read_summary (env : Env) (aiText : text) : json * json :=
  match search braceRegex aiText with
  | Some m =>
      match JSON_parse env (match group m 0 with Some t => t | None => [] end) with
      | Ok j =>
          (if truthy (get "feedback" j)
           then match get "feedback" j with Some v => v | None => JStr aiText end
           else JStr aiText,
           if truthy (get "score" j)
           then match get "score" j with Some v => v | None => JNull end
           else JNull)
      | Err _ => (JStr aiText, JNull)
      end
  | None =>
      match search scoreFieldRegex aiText with
      | Some m =>
          (JStr aiText,
           match group m 1 with Some d => JNum (num (decimal d)) | None => JNull end)
      | None => (JStr aiText, JNull)
      end
  end.

Definition session_summary (env : Env) (e : text) : M unit :=
  try_catch
    (rows <- select_answers e ;;
     match rows with
     | [] => return_json unit 422
               (JObj [("feedback"%string, JStr (lit "No answer data found for this email."))])
     | _ :: _ =>
         aiText <- groq env (summaryPrompt env rows ++ summary_request (lit "5")) ;;
         let (feedback, score) := read_summary env aiText in
         update_session e feedback score ;;
         respond 200 (JObj [("feedback"%string, feedback); ("score"%string, score)])
     end)
    (fun err => respond 500
                  (JObj [("feedback"%string, JStr (lit "Failed to generate summary."))])).

End Server.

(** ** The service of part_001 *)

Module Part001.

(** [ocrLang || "eng"] *)
Definition ocr_language (req : CheckRequest) : text :=
  match ocrLang req with
  | Some l => if nonempty l then l else lit "eng"
  | None => lit "eng"
  end.

Definition check_file (env : Env) (req : CheckRequest) : M unit :=
  try_catch
    (let lang := ocr_language req in
     match file req with
     | None => return_json unit 200 (obj_feedback false (lit "No file uploaded."))
     | Some f =>
         match parseInt (questionNumber req) with
         | None | Some 0%Z =>
             return_json unit 200
               (obj_feedback false (lit "Invalid or missing question number."))
         | Some qNum =>
             data <- select_supplier_name (email req) ;;
             let officialCompanyName :=
               match data with Some n => trim n | None => [] end in
             if negb (nonempty officialCompanyName) then
               return_json unit 200 (obj_feedback false
                 (lit "No official supplier/company name found from your login/profile. Please contact support or update your profile."))
             else
               docText <- await (extractText env (path f) (originalname f) (Some lang)) ;;
               unlinkSync (path f) ;;
               if negb (nonempty docText) || negb (nonempty (trim docText))
               then return_json unit 200 (obj_feedback false unreadable_message)
               else if negb (hasMatch docText officialCompanyName) then
                 return_json unit 200
                   (JObj [("success"%string, JBool false);
                          ("feedback"%string,
                           JStr (lit "Document does not clearly mention the registered company name: "
                                 ++ dquote ++ officialCompanyName ++ dquote
                                 ++ lit ". Please re-upload a document that contains your company name as registered."));
                          ("requireCompanyNameConfirmation"%string, JBool true);
                          ("detectedCompanyName"%string, JStr officialCompanyName)])
               else
                 feedback <- groq env (reviewPrompt env qNum docText (userExplanation req)
                                         (Some officialCompanyName)) ;;
                 let score := parseScore feedback in
                 modify (set_answers (upsert_feedback (email req) qNum feedback (now env))) ;;
                 respond 200 (JObj [("success"%string, JBool true);
                                    ("score"%string, score_json score);
                                    ("feedback"%string, JStr feedback)])
         end
     end)
    (fun err => respond 500 (JObj [("error"%string, JStr err)])).

(** The two counters of the roll-up, [total] and [count]. *)
Definition add_scores (acc : float * float) (scores : list Z) : float * float :=
  fold_left (fun tc s => (PrimFloat.add (fst tc) (num s),
                          PrimFloat.add (snd tc) PrimFloat.one))
            scores acc.

Definition totals (rows : list Answer) : float * float :=
  fold_left (fun tc ans => add_scores tc (extractAllScores (upload_feedback ans)))
            rows (PrimFloat.zero, PrimFloat.zero).

(** [count ? Math.round((total / maxPossible) * 100) : 0] *)
Definition overallScore (rows : list Answer) : float :=
  let (total, count) := totals rows in
  let maxPossible := PrimFloat.mul count (num 5) in
  if truthy (Some (JNum count))
  then Math_round (PrimFloat.mul (PrimFloat.div total maxPossible) (num 100))
  else PrimFloat.zero.

(** The feedback text kept from the model's summary; its score is not
    read. *)
Definition read_feedback (env : Env) (aiText : text) : json :=
  match search Server.braceRegex aiText with
  | Some m =>
      match JSON_parse env (match group m 0 with Some t => t | None => [] end) with
      | Ok j =>
          if truthy (get "feedback" j)
          then match get "feedback" j with Some v => v | None => JStr aiText end
          else JStr aiText
      | Err _ => JStr aiText
      end
  | None => JStr aiText
  end.

(** [/api/session-summary].  The statements after the [try] statement name
    [answers], [feedback] and [overallScore], which are declared inside the
    [try] block: evaluating them throws, after the response was sent. *)
Definition session_summary (env : Env) (e : text) : M unit :=
  try_catch
    (rows <- select_answers e ;;
     match rows with
     | [] => return_json unit 422
               (JObj [("feedback"%string, JStr (lit "No answer data found for this email."))])
     | _ :: _ =>
         let score := overallScore rows in
         aiText <- groq env (summaryPrompt env rows ++ summary_request (lit "10")) ;;
         let feedback := read_feedback env aiText in
         update_session e feedback (JNum score) ;;
         respond 200 (JObj [("feedback"%string, feedback); ("score"%string, JNum score)])
     end)
    (fun err => respond 500
                  (JObj [("feedback"%string, JStr (lit "Failed to generate summary."))])) ;;
  raise unit (lit "answers is not defined").

End Part001.

(** The score a response carries, if it carries one. *)
Definition response_score (o : Outcome) : option json :=
  match response o with
  | Some r => get "score" (body r)
  | None => None
  end.

Definition response_field (k : string) (o : Outcome) : option json :=
  match response o with
  | Some r => get k (body r)
  | None => None
  end.

(** ** The other handlers over the stores *)

(** [!!v] for a body field that is a string or missing. *)
Definition present (v : option text) : bool :=
  match v with
  | Some s => nonempty s
  | None => false
  end.

Definition field_text (v : option text) : text :=
  match v with Some s => s | None => [] end.

(** The row of [answers] with the key (email, question_number). *)
Definition lookup_answer (e : text) (q : Z) (rows : list Answer) : option Answer :=
  find (same_key e q) rows.

(** [select(...).eq("email", e).eq("question_number", q).single()]: the row
    when exactly one has the key, [null] otherwise. *)
Definition single_answer (e : text) (q : Z) (rows : list Answer) : option Answer :=
  match filter (same_key e q) rows with
  | [r] => Some r
  | _ => None
  end.

(** [upsert(row)] on the key (email, question_number): the row that has the
    key takes the columns the call gives ([change]); without such a row,
    [fresh] is added. *)
Fixpoint upsert_row (e : text) (q : Z) (change : Answer -> Answer) (fresh : Answer)
    (rows : list Answer) : list Answer :=
  match rows with
  | [] => [fresh]
  | r :: rows' =>
      if same_key e q r then change r :: rows'
      else r :: upsert_row e q change fresh rows'
  end.

(** [from("supplier_names").upsert({email, supplier_name, ...}, {onConflict: ["email"]})] *)
Fixpoint upsert_name (e name : text) (l : list (text * text)) : list (text * text) :=
  match l with
  | [] => [(e, name)]
  | (k, v) :: l' =>
      if text_eqb k e then (e, name) :: l' else (k, v) :: upsert_name e name l'
  end.

Definition set_supplier_names (f : list (text * text) -> list (text * text)) (w : World)
    : World :=
  MkWorld (f (supplier_names w)) (answers w) (sessions w) (tmp_files w) (groq_calls w).

(** The body of [/api/save-answer] and of [/api/skip-requirement]; the
    fields arrive as strings. *)
Record AnswerRequest : Type := MkAnswerRequest {
  sa_email : option text;
  sa_questionNumber : option text;
  sa_answer : option text
}.

Definition missing_fields : json :=
  JObj [("error"%string, JStr (lit "Missing fields"))].

Definition success_true : json := JObj [("success"%string, JBool true)].

(** [/api/set-supplier-name] and [/api/get-supplier-name], the same in both
    services. *)
Definition set_supplier_name (email supplierName : option text) : M unit :=
  if negb (present email) || negb (present supplierName) then
    return_json unit 400
      (JObj [("success"%string, JBool false);
             ("message"%string, JStr (lit "Missing fields"))])
  else
    try_catch
      (modify (set_supplier_names
                 (upsert_name (field_text email) (field_text supplierName))) ;;
       respond 200 (JObj [("success"%string, JBool true);
                          ("supplierName"%string, JStr (field_text supplierName))]))
      (fun err => respond 500
                    (JObj [("success"%string, JBool false);
                           ("message"%string, JStr (lit "Failed to set supplier name."))])).

Definition get_supplier_name (email : option text) : M unit :=
  if negb (present email) then
    return_json unit 400 (JObj [("supplierName"%string, JStr [])])
  else
    data <- select_supplier_name (field_text email) ;;
    respond 200 (JObj [("supplierName"%string, JStr (field_text data))]).

(** [/api/save-answer] of server.js: the upsert gives [answer] and
    [updated_at] and no other column. A question number that does not parse
    makes the key [NaN], sent as [null]; the table holds rows with a key
    only, and the store is taken to refuse that row with the message
    [refusal]. *)
Definition server_save_answer (env : Env) (refusal : text) (req : AnswerRequest) : M unit :=
  if negb (present (sa_email req)) || negb (present (sa_questionNumber req))
     || negb (present (sa_answer req))
  then return_json unit 400 missing_fields
  else
    try_catch
      (let e := field_text (sa_email req) in
       match parseInt (sa_questionNumber req) with
       | Some q =>
           modify (set_answers
                     (upsert_row e q
                        (fun r => MkAnswer e q (sa_answer req) (upload_feedback r)
                                           (skip_reason r) (Some (now env)))
                        (MkAnswer e q (sa_answer req) None None (Some (now env))))) ;;
           respond 200 success_true
       | None => return_json unit 500 (JObj [("error"%string, JStr refusal)])
       end)
      (fun err => respond 500 (JObj [("error"%string, JStr err)])).

Definition answered_no : text :=
  lit "Score: Offtrack (1/5)" ++ [LF] ++ lit "Summary: User answered 'No'.".

Definition requirement_skipped : text :=
  lit "Score: Offtrack (1/5)" ++ [LF] ++ lit "Summary: Requirement skipped.".

(** [/api/save-answer] of part_001: the upsert gives [upload_feedback] as
    well, the Offtrack text when the answer is "No" and [null] otherwise. *)
Definition part001_save_answer (env : Env) (refusal : text) (req : AnswerRequest) : M unit :=
  if negb (present (sa_email req)) || negb (present (sa_questionNumber req))
     || negb (present (sa_answer req))
  then return_json unit 400 missing_fields
  else
    let upload_feedback :=
      if text_eqb (field_text (sa_answer req)) (lit "No") then Some answered_no else None in
    try_catch
      (let e := field_text (sa_email req) in
       match parseInt (sa_questionNumber req) with
       | Some q =>
           modify (set_answers
                     (upsert_row e q
                        (fun r => MkAnswer e q (sa_answer req) upload_feedback
                                           (skip_reason r) (Some (now env)))
                        (MkAnswer e q (sa_answer req) upload_feedback None
                                  (Some (now env))))) ;;
           respond 200 success_true
       | None => return_json unit 500 (JObj [("error"%string, JStr refusal)])
       end)
      (fun err => respond 500 (JObj [("error"%string, JStr err)])).

(** [/api/skip-requirement] of part_001: the outcome of the upsert is not
    looked at. *)
Definition skip_requirement (env : Env) (req : AnswerRequest) : M unit :=
  if negb (present (sa_email req)) || negb (present (sa_questionNumber req))
  then return_json unit 400 missing_fields
  else
    let e := field_text (sa_email req) in
    match parseInt (sa_questionNumber req) with
    | Some q =>
        modify (set_answers
                  (upsert_row e q
                     (fun r => MkAnswer e q (Some (lit "Skipped")) (Some requirement_skipped)
                                        (skip_reason r) (Some (now env)))
                     (MkAnswer e q (Some (lit "Skipped")) (Some requirement_skipped) None
                               (Some (now env))))) ;;
        respond 200 success_true
    | None => respond 200 success_true
    end.

(** A row of [audit_logs], and the body of [/api/manual-score]. *)
Record AuditEntry : Type := MkAudit {
  au_email : text;
  au_question_number : Z;
  au_action : text;
  old_score : option text;
  new_score : text;
  au_comment : text;
  au_auditor : text
}.

Record ManualScoreRequest : Type := MkManualScoreRequest {
  ms_email : text;
  ms_questionNumber : Z;
  newScore : text;
  comment : text;
  auditor : text
}.

(** [/api/manual-score], the same in both services: the previous review text
    is read, every row with the key gets the new text, and the action is
    logged. (The columns [status] and [review_mode], which no handler reads,
    are not kept in [Answer].) *)
Definition manual_score (env : Env) (req : ManualScoreRequest) (w : World)
    (audit_logs : list AuditEntry) : Response * World * list AuditEntry :=
  let e := ms_email req in
  let q := ms_questionNumber req in
  let existing := single_answer e q (answers w) in
  let w' :=
    set_answers
      (map (fun r => if same_key e q r
                     then MkAnswer (a_email r) (question_number r) (answer r)
                                   (Some (newScore req)) (skip_reason r) (Some (now env))
                     else r)) w in
  let old :=
    match existing with
    | Some r => if present (upload_feedback r) then upload_feedback r else None
    | None => None
    end in
  (MkResponse 200 success_true, w',
   audit_logs ++ [MkAudit e q (lit "Manual Score Override") old (newScore req)
                          (comment req) (auditor req)]).

(** A row of [disagreements], and the body and file of
    [/api/disagree-feedback]. *)
Record Disagreement : Type := MkDisagreement {
  d_email : option text;
  d_question_number : option text;
  d_requirement : option text;
  disagree_reason : option text;
  ai_feedback : text;
  created_at : text
}.

Record DisagreeRequest : Type := MkDisagreeRequest {
  dr_email : option text;
  dr_questionNumber : option text;
  dr_requirement : option text;
  dr_disagreeReason : option text;
  dr_ocrLang : option text;
  dr_file : option UploadedFile
}.

(** The [try] block of [/api/disagree-feedback] up to the model's reply;
    [lang] is [None] in server.js and [ocrLang || "eng"] in part_001, and
    [prompt] is the template, a function of the requirement, the reason and
    the file text. *)
Definition disagree_review (env : Env) (lang : option text)
    (prompt : option text -> option text -> text -> text) (req : DisagreeRequest) : M text :=
  fileText <- match dr_file req with
              | Some f =>
                  t <- await (extractText env (path f) (originalname f) lang) ;;
                  unlinkSync (path f) ;;
                  ret t
              | None => ret []
              end ;;
  groq env (prompt (dr_requirement req) (dr_disagreeReason req) fileText).

Definition disagree_feedback (env : Env) (lang : option text)
    (prompt : option text -> option text -> text -> text) (req : DisagreeRequest)
    (w : World) (disagreements : list Disagreement) : Outcome * list Disagreement :=
  match disagree_review env lang prompt req (MkHState w None) with
  | (Next feedback, st) =>
      (MkOutcome (Some (MkResponse 200 (JObj [("feedback"%string, JStr feedback)])))
                 (world st) None,
       disagreements ++ [MkDisagreement (dr_email req) (dr_questionNumber req)
                           (dr_requirement req) (dr_disagreeReason req) feedback (now env)])
  | (Raise err, st) =>
      (MkOutcome (Some (MkResponse 500 (JObj [("error"%string, JStr err)])))
                 (world st) None,
       disagreements)
  | (Finish, st) => (MkOutcome (sent st) (world st) None, disagreements)
  end.

(** ** Text extraction *)

(** The libraries text extraction calls: [fs.readFileSync(path, "utf-8")],
    [pdfParse(fs.readFileSync(path))] with the [text] of its result, and
    [Tesseract.recognize(path, lang)] with the [text] of its result. Each
    returns or throws. *)
Record Libs : Type := MkLibs {
  readFileSync : text -> res text;
  pdfParse : text -> res text;
  recognize : text -> text -> res text
}.

(** [name.split(".").pop().toLowerCase()] *)
Definition extension (name : text) : text :=
  toLowerCase (last (split_on "." name) []).

Definition is_image (ext : text) : bool :=
  existsb (text_eqb ext) [lit "jpg"; lit "jpeg"; lit "png"].

(** [text && text.trim().length > 10] *)
Definition long_enough (t : text) : bool :=
  nonempty t && (10 <? len (trim t)).

(** The loop of server.js over the languages: the first result that is long
    enough; a throwing call is passed over. *)
Fixpoint first_recognized (libs : Libs) (localPath : text) (langs : list text) : text :=
  match langs with
  | [] => []
  | lang :: langs' =>
      match recognize libs localPath lang with
      | Ok t => if long_enough t then t else first_recognized libs localPath langs'
      | Err _ => first_recognized libs localPath langs'
      end
  end.

(** [extractText(localPath, originalName)] of server.js. *)
Definition server_extractText (libs : Libs) (localPath originalName : text) : res text :=
  let ext := extension originalName in
  if text_eqb ext (lit "pdf") then pdfParse libs localPath
  else if is_image ext then
    Ok (first_recognized libs localPath [lit "tha"; lit "ind"; lit "vie"; lit "eng"])
  else if text_eqb ext (lit "txt") then readFileSync libs localPath
  else Ok [].

(** [extractText(localPath, originalName, ocrLang)] of part_001. *)
Definition part001_extractText (libs : Libs) (localPath originalName ocrLang : text)
    : res text :=
  let ext := extension originalName in
  let ocr := match recognize libs localPath ocrLang with
             | Ok t => Ok t
             | Err _ => Ok []
             end in
  if text_eqb ext (lit "pdf") then
    match pdfParse libs localPath with
    | Ok t => if long_enough t then Ok t else ocr
    | Err e => Err e
    end
  else if is_image ext then ocr
  else if text_eqb ext (lit "txt") then readFileSync libs localPath
  else Ok [].

(** [extractText(localPath)] of part_000, which reads the extension off the
    path and knows no text files. *)
Definition part000_extractText (libs : Libs) (localPath : text) : res text :=
  let ext := extension localPath in
  if text_eqb ext (lit "pdf") then pdfParse libs localPath
  else if is_image ext then recognize libs localPath (lit "eng")
  else Ok [].

(** The environment of each service with its own text extraction. *)
Definition server_env (libs : Libs) (env : Env) : Env :=
  MkEnv (fun localPath originalName _ => server_extractText libs localPath originalName)
        (callGroq env) (JSON_parse env) (now env) (reviewPrompt env) (summaryPrompt env).

Definition part001_env (libs : Libs) (env : Env) : Env :=
  MkEnv (fun localPath originalName lang =>
           part001_extractText libs localPath originalName
             (match lang with Some l => l | None => lit "eng" end))
        (callGroq env) (JSON_parse env) (now env) (reviewPrompt env) (summaryPrompt env).

(** ** The score of a whole-folder review (part_000) *)

(** [score \s* [:=]? \s* ( \d{1,3} )], flag [i]. *)
Definition extractScoreRegex : regex :=
  seqs [ str_i "score"; star isSpace;
         opt (Chr (fun c => is_char ":" c || is_char "=" c));
         star isSpace; Group 1 (Rep isDigit 1 (Some 3)) ].

(** [extractScore(text)]: [parseInt(match[1], 10)], or [null]. *)
Definition extractScore (t : text) : option Z :=
  match search extractScoreRegex t with
  | Some m =>
      match group m 1 with
      | Some d => Some (decimal d)
      | None => None
      end
  | None => None
  end.

(** * The vocabulary of the properties *)

(** [s] starts with [w], letters compared without regard to case. *)
Fixpoint startsWith_i (w s : text) : bool :=
  match w, s with
  | [], _ => true
  | x :: w', c :: s' => ci x c && startsWith_i w' s'
  | _ :: _, [] => false
  end.

(** The text starts with "Score:" in some letter case. *)
Definition starts_marker (s : text) : bool := startsWith_i (lit "Score:") s.

(** The positions, counted from [i], at which the marker occurs. *)
Fixpoint occurrences (s : text) (i : nat) : list nat :=
  (if starts_marker s then [i] else []) ++
  match s with
  | [] => []
  | _ :: s' => occurrences s' (S i)
  end.

(** No marker starts at any of the first [n] positions of [t]. *)
Definition marker_free_before (n : nat) (t : text) : bool :=
  forallb (fun j => negb (starts_marker (skipn j t))) (seq 0 n).

(** The numbers the matches of a scan carry, as [extractAllScores] pushes
    them. *)
Definition scores_of (ms : list rmatch_result) : list Z :=
  flat_map (fun m => match group m 1 with
                     | Some d => match d with
                                 | [] => []
                                 | _ => [decimal d]
                                 end
                     | None => []
                     end) ms.

(** The five bands and their weights, as the prompt of the review handler
    lists them: stretch (5/5), commitment (4/5), robust (3/5), warning (2/5),
    offtrack (1/5). *)
Inductive ScoreBand : Type := Offtrack | Warning | Robust | Commitment | Stretch.

Definition weightOf (b : ScoreBand) : Z :=
  match b with
  | Offtrack => 1
  | Warning => 2
  | Robust => 3
  | Commitment => 4
  | Stretch => 5
  end.

Definition bandName (b : ScoreBand) : text :=
  match b with
  | Offtrack => lit "Offtrack"
  | Warning => lit "Warning"
  | Robust => lit "Robust"
  | Commitment => lit "Commitment"
  | Stretch => lit "Stretch"
  end.

(** A reply that opens with the requested score line, the band [b] written
    with the digit [d]. *)
Definition score_line (b : ScoreBand) (d : ascii) (rest : text) : text :=
  lit "Score: " ++ bandName b ++ lit " (" ++ [d] ++ lit "/5)" ++ rest.

(** The environment in which the model answers every prompt with [reply]. *)
Definition replying (env : Env) (reply : text) : Env :=
  MkEnv (extractText env) (fun _ => Ok reply) (JSON_parse env) (now env)
        (reviewPrompt env) (summaryPrompt env).

(** The stored verdict of question [q] with review text [t]. *)
Definition verdict (e : text) (q : Z) (t : text) : Answer :=
  MkAnswer e q None (Some t) None None.

(** The subject of the scenarios. *)
Definition subject : text := lit "a@x.com".

(** The stores holding nothing but the given verdicts of [subject], for
    questions 1, 2, ... *)
Definition stored (verdicts : list text) : World :=
  MkWorld []
    (map (fun qt => verdict subject (Z.of_nat (fst qt)) (snd qt))
         (combine (seq 1 (List.length verdicts)) verdicts))
    [] [] [].

(** Unfolds one handler and the monad, down to the stores and the
    collaborators' answers. *)
Ltac unfold_handler h :=
  cbv beta iota zeta delta
    [h run try_catch bind ret read modify await raise finish respond return_json
     select_answers select_supplier_name update_session unlinkSync groq
     world sent response final rejected response_score response_field].

(** [round(100 x total / maxPossible)] with [maxPossible = count x 5], in
    exact arithmetic, a tie going up; 0 when nothing was counted. *)
Definition exact_percent (total count : Z) : Z :=
  if (count =? 0)%Z then 0%Z
  else ((2 * (100 * total) + count * 5) / (2 * (count * 5)))%Z.

(** Every score parsed out of the rows, and the percentage that exact
    rounding gives for them. *)
Definition all_scores (rows : list Answer) : list Z :=
  flat_map (fun ans => extractAllScores (upload_feedback ans)) rows.

Definition claimed_percent (rows : list Answer) : Z :=
  exact_percent (fold_right Z.add 0%Z (all_scores rows))
                (Z.of_nat (List.length (all_scores rows))).

(** Eight stored verdicts: seven Robust and one Warning. *)
Definition seven_robust_one_warning : World :=
  stored (repeat (lit "Score: Robust (3/5)") 7 ++ [lit "Score: Warning (2/5)"]).

(** The environment in which text extraction returns [docText]. *)
Definition reading (env : Env) (docText : text) : Env :=
  MkEnv (fun _ _ _ => Ok docText) (callGroq env) (JSON_parse env) (now env)
        (reviewPrompt env) (summaryPrompt env).

(** The supplier "Acme Corp" and an upload that never names it. *)
Definition beta_document : text :=
  lit "Beta Industries" ++ [LF] ++ lit "Annual safety report of Beta Industries.".

(** The stores of a subject registered as "Acme Corp", with one upload on
    disk, and the request that carries that upload for question [q]. *)
Definition acme_world : World :=
  MkWorld [(subject, lit "Acme Corp")] [] [] [lit "tmp/3f9a"] [].

Definition upload (q : string) : CheckRequest :=
  MkCheckRequest subject (Some (lit q)) None None
    (Some (MkFile (lit "tmp/3f9a") (lit "policy.txt"))).

(** Nothing was sent to the model and no table changed. *)
Definition untouched (w : World) (o : Outcome) : Prop :=
  groq_calls (final o) = groq_calls w /\
  answers (final o) = answers w /\
  supplier_names (final o) = supplier_names w /\
  sessions (final o) = sessions w.

(** The document of the onboarding scenario. *)
Definition onboarding_document : text :=
  lit "Our Company Name: Acme Corp" ++ [LF] ++ lit "We have a written OHS policy...".

(** The run ends in the rejected-unreadable outcome: the message asking for
    a readable file, nothing sent to the model, no table changed. *)
Definition rejected_unreadable (w : World) (o : Outcome) : Prop :=
  response o = Some (MkResponse 200 (obj_feedback false unreadable_message)) /\
  rejected o = None /\
  untouched w o.

(** The environment in which text extraction throws. *)
Definition failing (env : Env) (message : text) : Env :=
  MkEnv (fun _ _ _ => Err message) (callGroq env) (JSON_parse env) (now env)
        (reviewPrompt env) (summaryPrompt env).

(** What a successful run of the matcher on [r] amounts to: from the text
    [s] at position [n] with the groups [cs], to the rest [s'] at position
    [n'] with the groups [cs']. *)
Fixpoint accepts (r : regex) (s : text) (n : nat) (cs : captures)
    (s' : text) (n' : nat) (cs' : captures) : Prop :=
  match r with
  | Eps => s' = s /\ n' = n /\ cs' = cs
  | Chr p => exists c, s = c :: s' /\ p c = true /\ n' = S n /\ cs' = cs
  | Seq r1 r2 =>
      exists s1 n1 cs1,
        accepts r1 s n cs s1 n1 cs1 /\ accepts r2 s1 n1 cs1 s' n' cs'
  | Alt r1 r2 => accepts r1 s n cs s' n' cs' \/ accepts r2 s n cs s' n' cs'
  | Rep p lo hi =>
      exists l,
        s = l ++ s' /\ forallb p l = true /\ n' = n + List.length l /\
        lo <= List.length l /\
        match hi with Some h => List.length l <= h | None => True end /\
        cs' = cs
  | Group i r1 => exists cs1, accepts r1 s n cs s' n' cs1 /\ cs' = (i, (n, n')) :: cs1
  | Eol => s = [] /\ s' = s /\ n' = n /\ cs' = cs
  end.

(** The pattern has no capture group. *)
Fixpoint groupless (r : regex) : bool :=
  match r with
  | Seq r1 r2 | Alt r1 r2 => groupless r1 && groupless r2
  | Group _ _ => false
  | _ => true
  end.

(** The stores after [fs.unlinkSync] of the upload, and after a prompt was
    sent. *)
Definition after_unlink (f : UploadedFile) (w : World) : World :=
  MkWorld (supplier_names w) (answers w) (sessions w)
          (remove_file (path f) (tmp_files w)) (groq_calls w).

Definition after_prompt (prompt : text) (w : World) : World :=
  MkWorld (supplier_names w) (answers w) (sessions w) (tmp_files w)
          (prompt :: groq_calls w).

(** A run that ended with one response and no rejection. *)
Definition answered (code : nat) (b : json) (w : World) : Outcome :=
  MkOutcome (Some (MkResponse code b)) w None.

(** The last step of a review: the prompt is sent; on a reply the verdict is
    stored and the reply returned with the score read off it; on a failed
    call the error is returned. *)
Definition review_step (env : Env) (req : CheckRequest) (q : Z) (prompt : text)
    (w : World) : Outcome :=
  match callGroq env prompt with
  | Ok feedback =>
      answered 200
        (JObj [("success"%string, JBool true);
               ("score"%string, score_json (parseScore feedback));
               ("feedback"%string, JStr feedback)])
        (set_answers (upsert_feedback (email req) q feedback (now env))
                     (after_prompt prompt w))
  | Err e => answered 500 (JObj [("error"%string, JStr e)]) (after_prompt prompt w)
  end.

Definition no_name_server : json :=
  obj_feedback false
    (lit "No official supplier/company name was found from your OHS Policy (Q1R1). Please upload it first, or ensure your document clearly states your company name.").

(** The paths of [/api/check-file] in server.js, one outcome each. *)
Definition server_check_file_paths (env : Env) (req : CheckRequest) (w : World) : Outcome :=
  match file req with
  | None => answered 200 (obj_feedback false (lit "No file uploaded.")) w
  | Some f =>
      match parseInt (questionNumber req) with
      | None | Some 0%Z =>
          answered 200 (obj_feedback false (lit "Invalid or missing question number.")) w
      | Some q =>
          match extractText env (path f) (originalname f) None with
          | Err e => answered 500 (JObj [("error"%string, JStr e)]) w
          | Ok docText =>
              if negb (existsb (text_eqb (path f)) (tmp_files w)) then
                answered 500
                  (JObj [("error"%string, JStr (lit "ENOENT: no such file or directory"))]) w
              else if negb (nonempty docText) || negb (nonempty (trim docText)) then
                answered 200 (obj_feedback false unreadable_message) (after_unlink f w)
              else if (q =? 1)%Z then
                answered 200
                  (JObj [("success"%string, JBool true);
                         ("feedback"%string,
                          JStr (lit "Detected company name: " ++ dquote
                                ++ extractCompanyName docText ++ dquote
                                ++ lit ". Please confirm or correct this."));
                         ("detectedCompanyName"%string, JStr (extractCompanyName docText));
                         ("requireCompanyNameConfirmation"%string, JBool true)])
                  (after_unlink f w)
              else
                match assoc (email req) (supplier_names w) with
                | None => answered 200 no_name_server (after_unlink f w)
                | Some name =>
                    if negb (nonempty name) then
                      answered 200 no_name_server (after_unlink f w)
                    else if negb (tokenMatch docText name) then
                      answered 200
                        (JObj [("success"%string, JBool false);
                               ("feedback"%string,
                                JStr (lit "Document does not clearly mention the supplier name detected from your OHS Policy: "
                                      ++ dquote ++ name ++ dquote
                                      ++ lit ". Please check or correct your company name. [You can manually set your company name if this keeps happening.]"));
                               ("requireCompanyNameConfirmation"%string, JBool true);
                               ("detectedCompanyName"%string, JStr name)])
                        (after_unlink f w)
                    else
                      review_step env req q
                        (reviewPrompt env q docText (userExplanation req) None)
                        (after_unlink f w)
                end
          end
      end
  end.

(** The paths of [/api/check-file] in part_001. *)
Definition part001_check_file_paths (env : Env) (req : CheckRequest) (w : World) : Outcome :=
  match file req with
  | None => answered 200 (obj_feedback false (lit "No file uploaded.")) w
  | Some f =>
      match parseInt (questionNumber req) with
      | None | Some 0%Z =>
          answered 200 (obj_feedback false (lit "Invalid or missing question number.")) w
      | Some q =>
          let officialCompanyName :=
            match assoc (email req) (supplier_names w) with
            | Some n => trim n
            | None => []
            end in
          if negb (nonempty officialCompanyName) then
            answered 200 (obj_feedback false
              (lit "No official supplier/company name found from your login/profile. Please contact support or update your profile.")) w
          else
            match extractText env (path f) (originalname f)
                    (Some (Part001.ocr_language req)) with
            | Err e => answered 500 (JObj [("error"%string, JStr e)]) w
            | Ok docText =>
                if negb (existsb (text_eqb (path f)) (tmp_files w)) then
                  answered 500
                    (JObj [("error"%string, JStr (lit "ENOENT: no such file or directory"))]) w
                else if negb (nonempty docText) || negb (nonempty (trim docText)) then
                  answered 200 (obj_feedback false unreadable_message) (after_unlink f w)
                else
                  review_step env req q
                    (reviewPrompt env q docText (userExplanation req)
                       (Some officialCompanyName))
                    (after_unlink f w)
            end
      end
  end.

Ltac unfold_handlers h1 h2 :=
  cbv beta iota zeta delta
    [h1 h2 run try_catch bind ret read modify await raise finish respond return_json
     select_answers select_supplier_name update_session unlinkSync groq
     world sent response final rejected response_score response_field].

(** The review went through: the prompt was sent, once; on a reply the
    verdict holds the reply and the response carries it with the score read
    off it; on a failed call nothing is stored and the response is the
    error. *)
Definition review_outcome (env : Env) (req : CheckRequest) (w : World) (o : Outcome)
    (q : Z) (prompt : text) : Prop :=
  groq_calls (final o) = prompt :: groq_calls w /\
  match callGroq env prompt with
  | Ok feedback =>
      answers (final o) = upsert_feedback (email req) q feedback (now env) (answers w) /\
      response o = Some (MkResponse 200
                           (JObj [("success"%string, JBool true);
                                  ("score"%string, score_json (parseScore feedback));
                                  ("feedback"%string, JStr feedback)]))
  | Err e =>
      answers (final o) = answers w /\
      response o = Some (MkResponse 500 (JObj [("error"%string, JStr e)]))
  end.

(** What no run of a review handler does: it always sends one response and
    its promise is not rejected, it leaves the name table and the sessions
    alone, and the only file it can remove is the upload. *)
Definition well_behaved (req : CheckRequest) (w : World) (o : Outcome) : Prop :=
  (exists r, response o = Some r) /\
  rejected o = None /\
  supplier_names (final o) = supplier_names w /\
  sessions (final o) = sessions w /\
  (tmp_files (final o) = tmp_files w \/
   exists f, file req = Some f /\
             tmp_files (final o) = remove_file (path f) (tmp_files w)).

(** The key of a row of [answers], and the rule that no two rows share
    one. *)
Definition key_of (r : Answer) : text * Z := (a_email r, question_number r).

Definition keys_unique (rows : list Answer) : Prop := NoDup (map key_of rows).

(** The extensions text extraction knows in the two services. *)
Definition supported (ext : text) : bool :=
  text_eqb ext (lit "pdf") || is_image ext || text_eqb ext (lit "txt").

(** The lines company-name extraction looks at: trimmed, with more than two
    characters. *)
Definition long_lines (docText : text) : list text :=
  filter (fun l => 2 <? len l) (map trim (split_on LF docText)).

(** The text ends with a character that is not white space. *)
Definition ends_solid (s : text) : Prop :=
  exists p c, s = p ++ [c] /\ isSpace c = false.

(** [l] spells the word [w], letter case apart. *)
Fixpoint spells (w l : text) : bool :=
  match w, l with
  | [], [] => true
  | x :: w', c :: l' => ci x c && spells w' l'
  | _, _ => false
  end.

(** The text [s] opens with a score line carrying the digit [d]: the marker
    "Score:", one of the five band names and "(d/5)", the marker and the
    name in any letter case, with any white space (or none) after the marker
    and after the name. *)
Definition opens_score_line (s : text) (d : ascii) : Prop :=
  exists (marker ws1 name ws2 rest : text) (b : ScoreBand),
    s = marker ++ ws1 ++ name ++ ws2 ++ lit "(" ++ [d] ++ lit "/5)" ++ rest /\
    spells (lit "Score:") marker = true /\
    forallb isSpace ws1 = true /\
    spells (bandName b) name = true /\
    forallb isSpace ws2 = true /\
    isDigit d = true.

(** The text is empty or starts with a character outside the class [p]. *)
Definition head_fails (p : ascii -> bool) (s : text) : bool :=
  match s with
  | [] => true
  | c :: _ => negb (p c)
  end.


(** The longest prefix of [s] in the class [p], and what follows it. *)
Fixpoint takeWhile (p : ascii -> bool) (s : text) : text :=
  match s with
  | c :: s' => if p c then c :: takeWhile p s' else []
  | [] => []
  end.


(** The digits [s] starts with, three at most. *)
Definition digits3 (s : text) : text := firstn 3 (takeWhile isDigit s).












(** The answer of part_001 to a subject without a registered name. *)
Definition no_name_part001 : json :=
  obj_feedback false
    (lit "No official supplier/company name found from your login/profile. Please contact support or update your profile.").

(** The output of the recogniser for [lang] is one server.js keeps: the call
    did not throw and gave more than 10 characters after trimming. *)
Definition qualifies (libs : Libs) (localPath lang : text) : bool :=
  match recognize libs localPath lang with
  | Ok t => long_enough t
  | Err _ => false
  end.

(** * Properties *)

(** ** The score marker and the multi-score scan *)

Section MatcherFacts.
Variable R : Type.

Lemma literal_mismatch (w s : text) (n : nat) (cs : captures)
    (k : text -> nat -> captures -> option R) :
  startsWith_i w s = false ->
  rmatch (seqs (map (fun x => Chr (ci x)) w)) s n cs k = None.
Proof.
  revert s n. induction w as [|x w IH]; intros s n H.
  - discriminate H.
  - destruct s as [|c s]; simpl in *; [reflexivity|].
    destruct (ci x c); simpl in H; [apply IH; exact H | reflexivity].
Qed.
End MatcherFacts.

Lemma no_marker_no_match (s : text) :
  starts_marker s = false -> match_here allScoresRegex s = None.
Proof.
  intros H. unfold match_here, allScoresRegex.
  change (seqs (?a :: ?l)) with (Seq a (seqs l)).
  cbn [rmatch]. unfold str_i. apply literal_mismatch. exact H.
Qed.





Lemma is_char_eq (x c : ascii) : is_char x c = true -> c = x.
Proof. unfold is_char. apply Ascii.eqb_eq. Qed.

Section Scan.
Variable r : regex.

Lemma exec_all_skip (x s : text) :
  exec_all r (x ++ s) (List.length x) = exec_all r s 0.
Proof. induction x as [|c x IH]; simpl; [destruct s|]; auto. Qed.

Lemma exec_all_miss (c : ascii) (s : text) :
  match_here r (c :: s) = None ->
  exec_all r (c :: s) 0 = exec_all r s 0.
Proof. intros H. simpl. rewrite H. reflexivity. Qed.

(** A match that covers the stretch [x]: the scan records it and resumes
    after [x]. *)
Lemma exec_all_hit (x s : text) (m : rmatch_result) :
  match_here r (x ++ s) = Some m ->
  m_length m = List.length x ->
  x <> [] ->
  exec_all r (x ++ s) 0 = m :: exec_all r s 0.
Proof.
  intros H Hlen Hx. destruct x as [|c x]; [contradiction|].
  change ((c :: x) ++ s) with (c :: x ++ s) in *.
  cbn [exec_all]. rewrite H, Hlen. cbn [List.length pred].
  rewrite exec_all_skip. reflexivity.
Qed.
End Scan.

Lemma occurrences_complete (s : text) (i j : nat) :
  starts_marker (skipn j s) = true -> In (i + j) (occurrences s i).
Proof.
  revert i j. induction s as [|c s IH]; intros i j H.
  - destruct j; discriminate H.
  - destruct j as [|j].
    + simpl in H. cbn [occurrences]. rewrite H, Nat.add_0_r. left. reflexivity.
    + cbn [occurrences]. apply in_or_app. right.
      replace (i + S j) with (S i + j) by lia. apply IH. exact H.
Qed.

(** A stretch of text in which no marker starts is passed over. *)
Lemma scan_passes (pre s : text) :
  (forall j, j < List.length pre -> starts_marker (skipn j (pre ++ s)) = false) ->
  exec_all allScoresRegex (pre ++ s) 0 = exec_all allScoresRegex s 0.
Proof.
  induction pre as [|c pre IH]; intros H; [reflexivity|].
  cbn [app]. rewrite exec_all_miss.
  - apply IH. intros j Hj. apply (H (S j)). simpl. lia.
  - apply no_marker_no_match. apply (H 0). simpl. lia.
Qed.

Lemma scan_nothing (s : text) :
  (forall j, starts_marker (skipn j s) = false) ->
  exec_all allScoresRegex s 0 = [].
Proof.
  intros H. rewrite <- (app_nil_r s). rewrite scan_passes.
  - reflexivity.
  - intros j _. rewrite app_nil_r. apply H.
Qed.


Lemma marker_free_before_spec (n : nat) (t : text) :
  marker_free_before n t = true ->
  forall j, j < n -> starts_marker (skipn j t) = false.
Proof.
  unfold marker_free_before. intros H j Hlt.
  rewrite forallb_forall in H. specialize (H j). rewrite in_seq in H.
  apply negb_true_iff. apply H. lia.
Qed.

Lemma extractAllScores_scan (t : text) :
  t <> [] -> extractAllScores (Some t) = scores_of (exec_all allScoresRegex t 0).
Proof. intros H. destruct t; [contradiction|reflexivity]. Qed.

Lemma scores_of_cons (m : rmatch_result) (ms : list rmatch_result) :
  scores_of (m :: ms) = scores_of [m] ++ scores_of ms.
Proof. unfold scores_of. cbn [flat_map]. rewrite app_nil_r. reflexivity. Qed.

Lemma extractAllScores_exec (t : text) :
  extractAllScores (Some t) = scores_of (exec_all allScoresRegex t 0).
Proof. destruct t; reflexivity. Qed.

(** X5. The scan of [extractAllScores] collects in order of appearance: when
    no marker starts before a stretch [line] of the text and the pattern
    matches exactly [line] there, the result is the number that match
    carries, followed by the scores of the text after [line]. *)
Theorem extractAllScores_collects_in_order (pre line rest : text) (m : rmatch_result) :
  marker_free_before (List.length pre) (pre ++ line ++ rest) = true ->
  match_here allScoresRegex (line ++ rest) = Some m ->
  m_length m = List.length line ->
  nonempty line = true ->
  extractAllScores (Some (pre ++ line ++ rest))
  = scores_of [m] ++ extractAllScores (Some rest).
Proof.
  intros Hpre Hm Hlen Hline.
  rewrite !extractAllScores_exec.
  rewrite scan_passes by (apply marker_free_before_spec; exact Hpre).
  rewrite (@exec_all_hit allScoresRegex line rest m Hm Hlen)
    by (destruct line; discriminate).
  apply scores_of_cons.
Qed.

Lemma extractAllScores_collects_in_order_witness :
  extractAllScores (Some (lit "Requirement 1. " ++ lit "Score: Warning (2/5)"
                          ++ lit " Requirement 2. Score: 4/5"))
  = [2%Z] ++ extractAllScores (Some (lit " Requirement 2. Score: 4/5")).
Proof.
  apply (@extractAllScores_collects_in_order (lit "Requirement 1. ")
           (lit "Score: Warning (2/5)") (lit " Requirement 2. Score: 4/5")
           (MkMatch 20 [(0, lit "Score: Warning (2/5)"); (1, lit "2")]));
    reflexivity.
Defined.


(** ** Single-score extraction *)

(** C2, as stated, fails: for the reply "Score: Robust (5/5)" the handler's
    score is the digit 5, not the weight 3 of the band Robust. *)
Lemma parseScore_band_not_authoritative :
  ~ (forall (b : ScoreBand) (d : ascii) (rest : text),
       isDigit d = true ->
       parseScore (score_line b d rest) = Some (weightOf b)).
Proof.
  intros H. specialize (H Robust "5"%char [] eq_refl).
  vm_compute in H. discriminate H.
Qed.

Lemma no_marker_no_score (s : text) :
  starts_marker s = false -> match_here scoreRegex s = None.
Proof.
  intros H. unfold match_here, scoreRegex.
  change (seqs (?a :: ?l)) with (Seq a (seqs l)).
  cbn [rmatch]. unfold str_i. apply literal_mismatch. exact H.
Qed.

Lemma search_passes (pre s : text) :
  marker_free_before (List.length pre) (pre ++ s) = true ->
  search scoreRegex (pre ++ s) = search scoreRegex s.
Proof.
  intros H. pose proof (@marker_free_before_spec _ _ H) as Hj.
  clear H. induction pre as [|c pre IH]; [reflexivity|].
  cbn [app search]. rewrite no_marker_no_score by (apply (Hj 0); simpl; lia).
  apply IH. intros j Hlt. apply (Hj (S j)). simpl. lia.
Qed.

Lemma score_line_match (b : ScoreBand) (d : ascii) (rest : text) :
  isDigit d = true ->
  match search scoreRegex (score_line b d rest) with
  | Some m => group m 2
  | None => None
  end = Some [d].
Proof.
  destruct d as [[] [] [] [] [] [] [] []]; intros H;
    try discriminate H; destruct b; vm_compute; reflexivity.
Qed.

(** ** The session roll-up *)

Lemma part001_summary_response (env : Env) (e : text) (w : World) :
  answers_of e w <> [] ->
  forall reply : text,
    response (run (Part001.session_summary (replying env reply) e) w)
    = Some (MkResponse 200
              (JObj [("feedback"%string, Part001.read_feedback env reply);
                     ("score"%string, JNum (Part001.overallScore (answers_of e w)))])).
Proof.
  intros H reply.
  unfold_handler Part001.session_summary.
  destruct (answers_of e w) as [|r rows] eqn:E; [contradiction|].
  reflexivity.
Qed.

Lemma part001_summary_empty (env : Env) (e : text) (w : World) :
  answers_of e w = [] ->
  response (run (Part001.session_summary env e) w)
  = Some (MkResponse 422
            (JObj [("feedback"%string, JStr (lit "No answer data found for this email."))])).
Proof.
  intros H. unfold_handler Part001.session_summary. rewrite H. reflexivity.
Qed.

(** The score part_001 stores in [sessions] is the computed one as well. *)
Lemma part001_summary_stored_scores (env : Env) (e : text) (w : World) (reply : text) :
  map gemini_score (sessions (final (run (Part001.session_summary (replying env reply) e) w)))
  = map (fun s => if text_eqb (s_email s) e
                  then match answers_of e w with
                       | [] => gemini_score s
                       | rows => JNum (Part001.overallScore rows)
                       end
                  else gemini_score s)
        (sessions w).
Proof.
  unfold_handler Part001.session_summary.
  destruct (answers_of e w) as [|r rows] eqn:E;
    cbn [world sent sessions set_sessions replying callGroq].
  - symmetry. erewrite map_ext; [reflexivity|].
    intros s. destruct (text_eqb (s_email s) e); reflexivity.
  - rewrite map_map. apply map_ext.
    intros s. destruct (text_eqb (s_email s) e); reflexivity.
Qed.

(** X1. In part_001 the score of the session summary is the roll-up of the
    stored verdicts and nothing else: for a subject with stored answers the
    response carries [overallScore] of the subject's rows, whatever the
    model replies, and that is the score stored in [sessions]; for a
    subject without stored answers the response carries no score. So two
    runs over the same stores, with any two replies, answer with the same
    score and store the same score. *)
Theorem part001_summary_score_ignores_reply
    (env : Env) (e : text) (w : World) (reply1 reply2 : text) :
  let o1 := run (Part001.session_summary (replying env reply1) e) w in
  let o2 := run (Part001.session_summary (replying env reply2) e) w in
  response_score o1
  = match answers_of e w with
    | [] => None
    | rows => Some (JNum (Part001.overallScore rows))
    end /\
  map gemini_score (sessions (final o1))
  = map (fun s => if text_eqb (s_email s) e
                  then match answers_of e w with
                       | [] => gemini_score s
                       | rows => JNum (Part001.overallScore rows)
                       end
                  else gemini_score s)
        (sessions w) /\
  response_score o1 = response_score o2 /\
  map gemini_score (sessions (final o1)) = map gemini_score (sessions (final o2)).
Proof.
  cbv zeta.
  assert (Hscore : forall reply,
             response_score (run (Part001.session_summary (replying env reply) e) w)
             = match answers_of e w with
               | [] => None
               | rows => Some (JNum (Part001.overallScore rows))
               end).
  { intros reply. unfold response_score.
    destruct (answers_of e w) as [|r rows] eqn:E.
    - rewrite part001_summary_empty by exact E. reflexivity.
    - rewrite part001_summary_response by (rewrite E; discriminate).
      rewrite E. reflexivity. }
  split; [apply Hscore|]. split; [apply part001_summary_stored_scores|].
  split; [rewrite !Hscore; reflexivity|].
  rewrite !part001_summary_stored_scores. reflexivity.
Qed.

(** C1, on server.js. The session summary of server.js answers with the
    score the model wrote in its summary: over the same stored verdict, the
    reply "Score: 90" gives the score 90 and the reply "Score: 10" gives 10,
    and these are the scores it stores. *)
Theorem server_summary_score_follows_reply (env : Env) :
  let w := stored [lit "Score: Robust (3/5)"] in
  response_score (run (Server.session_summary (replying env (lit "Score: 90")) subject) w)
  = Some (JNum (num 90)) /\
  response_score (run (Server.session_summary (replying env (lit "Score: 10")) subject) w)
  = Some (JNum (num 10)) /\
  Part001.overallScore (answers_of subject w) = num 60.
Proof. vm_compute. auto. Qed.

(** C3, at eight verdicts that total 23 of 40. The counters are 23 and 8,
    the quotient 23/40 times 100 is a double just below 57.5, and the
    handler answers 57, where rounding 100 x 23 / 40 = 57.5 gives 58. *)
Theorem overallScore_23_of_40 (env : Env) (reply : text) :
  let rows := answers_of subject seven_robust_one_warning in
  Part001.totals rows = (num 23, num 8) /\
  PrimFloat.ltb (PrimFloat.mul (PrimFloat.div (num 23) (num 40)) (num 100))
                (PrimFloat.div (num 115) (num 2)) = true /\
  response_score (run (Part001.session_summary (replying env reply) subject)
                      seven_robust_one_warning)
  = Some (JNum (num 57)) /\
  claimed_percent rows = 58%Z.
Proof.
  cbv zeta. split; [vm_compute; reflexivity|].
  split; [vm_compute; reflexivity|].
  split; [|vm_compute; reflexivity].
  unfold response_score. rewrite part001_summary_response by (vm_compute; discriminate).
  vm_compute. reflexivity.
Qed.

(** C10, as stated, fails on its example: the stored verdict "Score: 100" is
    read as the score 0 (the optional word before the digits takes "10"),
    and the session summary answers 0, not more than 100. *)
Lemma score_100_is_read_as_zero :
  extractAllScores (Some (lit "Score: 100")) = [0%Z] /\
  Part001.overallScore (answers_of subject (stored [lit "Score: 100"])) = PrimFloat.zero /\
  ~ (PrimFloat.ltb (num 100)
       (Part001.overallScore (answers_of subject (stored [lit "Score: 100"]))) = true).
Proof.
  split; [vm_compute; reflexivity|].
  split; [vm_compute; reflexivity|].
  vm_compute. discriminate.
Qed.

(** C10, amended. The session summary can answer more than 100: the number
    after the marker is taken as it stands, up to three digits and never
    clamped to 1..5, when no word runs into it, as in "Score: Robust (100/5)"
    or "Score: (100)"; one such verdict gives [total] 100 against
    [maxPossible] 5 and the score 2000. *)
Theorem overallScore_can_exceed_100 (env : Env) (reply : text) :
  extractAllScores (Some (lit "Score: Robust (100/5)")) = [100%Z] /\
  extractAllScores (Some (lit "Score: (100)")) = [100%Z] /\
  response_score (run (Part001.session_summary (replying env reply) subject)
                      (stored [lit "Score: Robust (100/5)"]))
  = Some (JNum (num 2000)) /\
  PrimFloat.ltb (num 100) (num 2000) = true.
Proof.
  split; [vm_compute; reflexivity|].
  split; [vm_compute; reflexivity|].
  split; [|vm_compute; reflexivity].
  unfold response_score. rewrite part001_summary_response by (vm_compute; discriminate).
  vm_compute. reflexivity.
Qed.

Lemma totals_no_scores (rows : list Answer) (acc : float * float) :
  all_scores rows = [] ->
  fold_left (fun tc ans => Part001.add_scores tc (extractAllScores (upload_feedback ans)))
            rows acc = acc.
Proof.
  revert acc. induction rows as [|r rows IH]; intros acc H; [reflexivity|].
  unfold all_scores in H. cbn [flat_map] in H.
  apply app_eq_nil in H. destruct H as [H1 H2].
  cbn [fold_left]. rewrite H1. cbn [Part001.add_scores fold_left].
  apply IH. exact H2.
Qed.

(** X3. When no score is parsed out of the stored verdicts, the roll-up of
    part_001 is 0, a number and not an error. *)
Theorem overallScore_zero_without_scores (rows : list Answer) :
  all_scores rows = [] -> Part001.overallScore rows = PrimFloat.zero.
Proof.
  intros H. unfold Part001.overallScore, Part001.totals.
  rewrite totals_no_scores by exact H. reflexivity.
Qed.

Lemma overallScore_zero_without_scores_witness :
  Part001.overallScore [MkAnswer subject 1 (Some (lit "Yes")) None None None;
                        verdict subject 2 (lit "Summary: no rating given.")]
  = PrimFloat.zero.
Proof. apply overallScore_zero_without_scores. reflexivity. Defined.

(** X4. Multi-score extraction on a text in which the marker "Score:" does
    not occur, in any letter case, returns the empty sequence. *)
Theorem extractAllScores_without_marker (t : text) :
  occurrences t 0 = [] -> extractAllScores (Some t) = [].
Proof.
  intros H. destruct t as [|c t]; [reflexivity|].
  rewrite extractAllScores_scan by discriminate.
  rewrite scan_nothing; [reflexivity|].
  intros j. match goal with |- ?b = false => destruct b eqn:E; [|reflexivity] end.
  apply (occurrences_complete _ 0) in E. rewrite H in E. destruct E.
Qed.

Lemma extractAllScores_without_marker_witness :
  extractAllScores (Some (lit "Summary: the policy is approved. Rating pending.")) = [].
Proof. apply extractAllScores_without_marker. reflexivity. Defined.

(** ** The identity check *)

Lemma text_eqb_refl (s : text) : text_eqb s s = true.
Proof. induction s as [|c s IH]; simpl; [|rewrite Ascii.eqb_refl]; auto. Qed.

(** The comparison of part_001 always succeeds: its last candidate is the
    registered name itself. *)
Lemma hasMatch_true (docText officialCompanyName : text) :
  hasMatch docText officialCompanyName = true.
Proof.
  unfold hasMatch, candidateNames. rewrite existsb_app. cbn [existsb].
  rewrite text_eqb_refl. rewrite orb_true_l. apply orb_true_r.
Qed.

(** C4. In part_001 the identity check reports a match for every document
    text and every registered name, and no run of the review handler ends in
    the identity-mismatch response (the only response of this handler that
    asks for the company name to be confirmed). *)
Theorem part001_identity_mismatch_unreachable :
  (forall docText officialCompanyName : text,
      hasMatch docText officialCompanyName = true) /\
  (forall (env : Env) (req : CheckRequest) (w : World),
      response_field "requireCompanyNameConfirmation"
        (run (Part001.check_file env req) w) = None /\
      response_field "detectedCompanyName"
        (run (Part001.check_file env req) w) = None).
Proof.
  split; [exact hasMatch_true|].
  intros env req w.
  unfold_handler Part001.check_file.
  destruct (file req) as [f|]; [|split; reflexivity].
  destruct (parseInt (questionNumber req)) as [[|q|q]|]; try (split; reflexivity).
  all: cbn [world sent].
  all: match goal with
       | |- context [negb (nonempty ?n)] => destruct (nonempty n)
       end; cbn [negb]; [|split; reflexivity].
  all: match goal with
       | |- context [extractText ?e ?a ?b ?c] =>
           destruct (extractText e a b c) as [docText|err]
       end; [|split; reflexivity].
  all: match goal with
       | |- context [existsb ?p ?l] => destruct (existsb p l)
       end; [|split; reflexivity].
  all: destruct (negb (nonempty docText) || negb (nonempty (trim docText)));
         [split; reflexivity|].
  all: rewrite hasMatch_true; cbn [negb].
  all: match goal with
       | |- context [callGroq ?e ?p] => destruct (callGroq e p)
       end; split; reflexivity.
Qed.

Lemma startsWith_app (w s t : text) :
  startsWith w s = true -> startsWith w (s ++ t) = true.
Proof.
  revert s. induction w as [|x w IH]; intros s H; [destruct s; reflexivity|].
  destruct s as [|c s]; [discriminate H|].
  simpl in *. apply andb_true_iff in H. destruct H as [H1 H2].
  rewrite H1. apply IH. exact H2.
Qed.

Lemma includes_app_l (w s t : text) :
  includes w s = true -> includes w (s ++ t) = true.
Proof.
  induction s as [|c s IH]; intros H.
  - destruct w; [destruct t; reflexivity|discriminate H].
  - cbn [includes] in H. cbn [app includes].
    apply orb_true_iff in H. destruct H as [H|H].
    + pose proof (startsWith_app _ _ t H) as H'. cbn [app] in H'.
      rewrite H'. reflexivity.
    + rewrite (IH H). apply orb_true_r.
Qed.

Lemma includes_app_r (w s t : text) :
  includes w t = true -> includes w (s ++ t) = true.
Proof.
  intros H. induction s as [|c s IH]; [exact H|].
  cbn [app includes]. rewrite IH. apply orb_true_r.
Qed.

Lemma includes_middle (w a s b : text) :
  includes w s = true -> includes w (a ++ s ++ b) = true.
Proof. intros H. apply includes_app_r, includes_app_l, H. Qed.

(** X2. The token-overlap check of server.js accepts the registered name
    "Metro Telworks Pte Ltd" against every document text that contains
    "METRO TELWORKS", and so does the comparison of part_001. *)
Theorem metro_telworks_accepted (pre post : text) :
  tokenMatch (pre ++ lit "METRO TELWORKS" ++ post) (lit "Metro Telworks Pte Ltd") = true /\
  hasMatch (pre ++ lit "METRO TELWORKS" ++ post) (lit "Metro Telworks Pte Ltd") = true.
Proof.
  split; [|apply hasMatch_true].
  unfold tokenMatch, matchCount.
  change (supplierWords (lit "Metro Telworks Pte Ltd"))
    with [lit "metro"; lit "telworks"; lit "pte"; lit "ltd"].
  unfold toLowerCase. rewrite !map_app, !filter_app.
  change (filter alnum_space_i (map lower (lit "METRO TELWORKS")))
    with (lit "metro telworks").
  cbn [filter].
  rewrite !includes_middle by reflexivity.
  repeat match goal with
         | |- context [if includes ?a ?b then _ else _] => destruct (includes a b)
         end; reflexivity.
Qed.

(** C5, at the registered name "Acme Corp" and a document about Beta
    Industries. The token-overlap check of server.js rejects the upload
    with the mismatch response and sends nothing to the model; the
    comparison of part_001 reports a match, the handler sends the document
    to the model and stores the verdict. *)
Theorem acme_against_beta_industries (env : Env) (reply : text) :
  let env' := replying (reading env beta_document) reply in
  let server := run (Server.check_file env' (upload "2")) acme_world in
  let part001 := run (Part001.check_file env' (upload "2")) acme_world in
  tokenMatch beta_document (lit "Acme Corp") = false /\
  response_field "success" server = Some (JBool false) /\
  response_field "requireCompanyNameConfirmation" server = Some (JBool true) /\
  groq_calls (final server) = [] /\
  hasMatch beta_document (lit "Acme Corp") = true /\
  response_field "success" part001 = Some (JBool true) /\
  List.length (groq_calls (final part001)) = 1 /\
  map upload_feedback (answers (final part001)) = [Some reply].
Proof. vm_compute. repeat split; reflexivity. Qed.

(** ** The review handler *)

(** C7. A question-1 upload whose text is "Our Company Name: Acme Corp",
    a line break, "We have a written OHS policy...": the review handler of
    server.js extracts the name "Acme Corp" and answers with it and with the
    request to confirm it; it sends nothing to the model and stores no
    verdict. This holds whatever the name table holds, so in particular for
    a subject without a registered name. *)
Theorem onboarding_detects_acme_corp
    (env : Env) (req : CheckRequest) (w : World) (f : UploadedFile) :
  file req = Some f ->
  parseInt (questionNumber req) = Some 1%Z ->
  existsb (text_eqb (path f)) (tmp_files w) = true ->
  extractText env (path f) (originalname f) None = Ok onboarding_document ->
  let o := run (Server.check_file env req) w in
  extractCompanyName onboarding_document = lit "Acme Corp" /\
  response_field "success" o = Some (JBool true) /\
  response_field "requireCompanyNameConfirmation" o = Some (JBool true) /\
  response_field "detectedCompanyName" o = Some (JStr (lit "Acme Corp")) /\
  rejected o = None /\
  untouched w o.
Proof.
  intros Hf Hq Hd Hx. cbv zeta. unfold untouched.
  split; [vm_compute; reflexivity|].
  unfold_handler Server.check_file.
  rewrite Hf, Hq. cbv beta iota. rewrite Hx. cbn [world sent]. rewrite Hd.
  vm_compute. repeat split; reflexivity.
Qed.

Lemma onboarding_detects_acme_corp_witness :
  let o := run (Server.check_file (reading (MkEnv (fun _ _ _ => Err []) (fun _ => Err [])
                                              (fun _ => Err []) [] (fun _ _ _ _ => [])
                                              (fun _ => []))
                                           onboarding_document)
                                  (upload "1"))
               (MkWorld [] [] [] [lit "tmp/3f9a"] []) in
  response_field "detectedCompanyName" o = Some (JStr (lit "Acme Corp")) /\
  groq_calls (final o) = [] /\ answers (final o) = [].
Proof.
  pose proof (@onboarding_detects_acme_corp
                (reading (MkEnv (fun _ _ _ => Err []) (fun _ => Err [])
                                (fun _ => Err []) [] (fun _ _ _ _ => [])
                                (fun _ => []))
                         onboarding_document)
                (upload "1") (MkWorld [] [] [] [lit "tmp/3f9a"] [])
                (MkFile (lit "tmp/3f9a") (lit "policy.txt"))
                eq_refl eq_refl eq_refl eq_refl) as H.
  cbv zeta in *. destruct H as (_ & _ & _ & Hn & _ & Hg & Ha & _).
  split; [exact Hn|]. split; [exact Hg | exact Ha].
Defined.

Lemma trimStart_blank (s : text) : forallb isSpace s = true -> trimStart s = [].
Proof.
  induction s as [|c s IH]; intros H; [reflexivity|].
  simpl in *. apply andb_true_iff in H. destruct H as [H1 H2].
  rewrite H1. apply IH. exact H2.
Qed.

Lemma trim_blank (s : text) : forallb isSpace s = true -> trim s = [].
Proof. intros H. unfold trim. rewrite trimStart_blank by exact H. reflexivity. Qed.

(** C9, at an upload sent with the question number "abc", and at an upload
    whose text extraction throws. In both variants the handler answers
    (with the invalid-number message, or with status 500 and the error) and
    the uploaded file is still under [tmp/]: [fs.unlinkSync] is reached only
    after a successful extraction. *)
Theorem upload_left_in_tmp (env : Env) :
  let thrown := lit "Invalid PDF structure" in
  let invalid_server := run (Server.check_file env (upload "abc")) acme_world in
  let invalid_part001 := run (Part001.check_file env (upload "abc")) acme_world in
  let throwing_server := run (Server.check_file (failing env thrown) (upload "2")) acme_world in
  let throwing_part001 := run (Part001.check_file (failing env thrown) (upload "2")) acme_world in
  response invalid_server
  = Some (MkResponse 200 (obj_feedback false (lit "Invalid or missing question number."))) /\
  tmp_files (final invalid_server) = [lit "tmp/3f9a"] /\
  response invalid_part001
  = Some (MkResponse 200 (obj_feedback false (lit "Invalid or missing question number."))) /\
  tmp_files (final invalid_part001) = [lit "tmp/3f9a"] /\
  response throwing_server = Some (MkResponse 500 (JObj [("error"%string, JStr thrown)])) /\
  tmp_files (final throwing_server) = [lit "tmp/3f9a"] /\
  response throwing_part001 = Some (MkResponse 500 (JObj [("error"%string, JStr thrown)])) /\
  tmp_files (final throwing_part001) = [lit "tmp/3f9a"].
Proof. vm_compute. repeat split; reflexivity. Qed.

(** ** What a match is made of *)

Section MatcherSoundness.
Variable R : Type.

Lemma rep_greedy_sound (p : ascii -> bool) (s : text) :
  forall (lo : nat) (hi : option nat) (n : nat) (k : text -> nat -> option R) (x : R),
    rep_greedy p lo hi s n k = Some x ->
    exists l s',
      s = l ++ s' /\ forallb p l = true /\ lo <= List.length l /\
      match hi with Some h => List.length l <= h | None => True end /\
      k s' (n + List.length l) = Some x.
Proof.
  induction s as [|c s IH]; intros lo hi n k x H.
  - cbn [rep_greedy] in H. destruct (lo =? 0) eqn:E; [|discriminate H].
    apply Nat.eqb_eq in E. exists [], []. rewrite Nat.add_0_r.
    split; [reflexivity|]. split; [reflexivity|]. split; [simpl; lia|].
    split; [destruct hi; simpl; [lia|exact I] | exact H].
  - cbn [rep_greedy] in H.
    assert (Hstop : (if lo =? 0 then k (c :: s) n else None) = Some x ->
                    exists l s',
                      c :: s = l ++ s' /\ forallb p l = true /\ lo <= List.length l /\
                      match hi with Some h => List.length l <= h | None => True end /\
                      k s' (n + List.length l) = Some x).
    { intros Hs. destruct (lo =? 0) eqn:E; [|discriminate Hs].
      apply Nat.eqb_eq in E. exists [], (c :: s). rewrite Nat.add_0_r.
      split; [reflexivity|]. split; [reflexivity|]. split; [simpl; lia|].
      split; [destruct hi; simpl; [lia|exact I] | exact Hs]. }
    destruct (p c && match hi with Some 0 => false | _ => true end) eqn:Ec;
      [|exact (Hstop H)].
    destruct (rep_greedy p (pred lo) (option_map pred hi) s (S n) k) as [y|] eqn:Er;
      [|exact (Hstop H)].
    injection H as ->. apply andb_true_iff in Ec. destruct Ec as [Hc Hhi].
    destruct (IH _ _ _ _ _ Er) as (l & s' & Hs & Hp & Hlo & Hh & Hk).
    exists (c :: l), s'. subst s. cbn [forallb List.length app]. rewrite Hc, Hp.
    replace (n + S (List.length l)) with (S n + List.length l) by lia.
    split; [reflexivity|]. split; [reflexivity|]. split; [lia|].
    split; [|exact Hk].
    destruct hi as [[|h]|]; simpl in *; try lia; try exact I; try discriminate Hhi.
Qed.

Lemma rmatch_sound (r : regex) :
  forall (s : text) (n : nat) (cs : captures)
         (k : text -> nat -> captures -> option R) (x : R),
    rmatch r s n cs k = Some x ->
    exists s' n' cs', accepts r s n cs s' n' cs' /\ k s' n' cs' = Some x.
Proof.
  induction r as [|p|r1 IH1 r2 IH2|r1 IH1 r2 IH2|p lo hi|i r1 IH1|];
    intros s n cs k x H; cbn [rmatch] in H.
  - exists s, n, cs. cbn. auto.
  - destruct s as [|c s]; [discriminate H|].
    destruct (p c) eqn:E; [|discriminate H].
    exists s, (S n), cs. split; [|exact H]. exists c. auto.
  - destruct (IH1 _ _ _ _ _ H) as (s1 & n1 & cs1 & H1 & Hk).
    destruct (IH2 _ _ _ _ _ Hk) as (s2 & n2 & cs2 & H2 & Hk2).
    exists s2, n2, cs2. split; [|exact Hk2]. exists s1, n1, cs1. auto.
  - destruct (rmatch r1 s n cs k) as [y|] eqn:E.
    + injection H as ->. destruct (IH1 _ _ _ _ _ E) as (s1 & n1 & cs1 & H1 & Hk).
      exists s1, n1, cs1. split; [left; exact H1 | exact Hk].
    + destruct (IH2 _ _ _ _ _ H) as (s1 & n1 & cs1 & H1 & Hk).
      exists s1, n1, cs1. split; [right; exact H1 | exact Hk].
  - destruct (rep_greedy_sound _ _ _ _ _ _ H) as (l & s' & Hs & Hp & Hlo & Hh & Hk).
    exists s', (n + List.length l), cs. split; [|exact Hk].
    exists l. auto 10.
  - destruct (IH1 _ _ _ _ _ H) as (s1 & n1 & cs1 & H1 & Hk).
    exists s1, n1, ((i, (n, n1)) :: cs1). split; [|exact Hk].
    exists cs1. auto.
  - destruct s; [|discriminate H]. exists [], n, cs. cbn. auto.
Qed.
End MatcherSoundness.

(** A run consumes a prefix of the text, and a pattern without groups
    leaves the groups as they were. *)
Lemma accepts_frame (r : regex) :
  forall s n cs s' n' cs',
    accepts r s n cs s' n' cs' ->
    exists l, s = l ++ s' /\ n' = n + List.length l /\
              (groupless r = true -> cs' = cs).
Proof.
  induction r as [|p|r1 IH1 r2 IH2|r1 IH1 r2 IH2|p lo hi|i r1 IH1|];
    intros s n cs s' n' cs' H; cbn [accepts groupless] in *.
  - destruct H as (-> & -> & ->). exists []. simpl. auto.
  - destruct H as (c & -> & _ & -> & ->). exists [c]. simpl.
    repeat split; auto; lia.
  - destruct H as (s1 & n1 & cs1 & H1 & H2).
    destruct (IH1 _ _ _ _ _ _ H1) as (l1 & -> & -> & G1).
    destruct (IH2 _ _ _ _ _ _ H2) as (l2 & -> & -> & G2).
    exists (l1 ++ l2). rewrite <- app_assoc, length_app.
    repeat split; try lia.
    intros G. apply andb_true_iff in G. destruct G as [Ga Gb].
    rewrite (G2 Gb). apply G1, Ga.
  - destruct H as [H|H].
    + destruct (IH1 _ _ _ _ _ _ H) as (l & -> & -> & G1). exists l.
      repeat split; auto. intros G. apply andb_true_iff in G. apply G1, G.
    + destruct (IH2 _ _ _ _ _ _ H) as (l & -> & -> & G2). exists l.
      repeat split; auto. intros G. apply andb_true_iff in G. apply G2, G.
  - destruct H as (l & -> & _ & -> & _ & _ & ->). exists l. auto.
  - destruct H as (cs1 & H & ->).
    destruct (IH1 _ _ _ _ _ _ H) as (l & -> & -> & _). exists l.
    repeat split; auto. discriminate.
  - destruct H as (-> & -> & -> & ->). exists []. simpl. auto.
Qed.

Lemma slice_span (a l b : text) :
  slice (a ++ l ++ b) (List.length a, List.length a + List.length l) = l.
Proof.
  unfold slice. cbn [fst snd].
  replace (List.length a + List.length l - List.length a) with (List.length l) by lia.
  rewrite skipn_app, skipn_all, Nat.sub_diag. cbn [skipn app].
  rewrite firstn_app, firstn_all, Nat.sub_diag. cbn [firstn]. apply app_nil_r.
Qed.

Lemma search_from_match (r : regex) (s : text) (m : rmatch_result) :
  search r s = Some m -> exists t, match_here r t = Some m.
Proof.
  induction s as [|c s IH]; cbn [search]; intros H.
  - destruct (match_here r []) eqn:E; [|discriminate H].
    injection H as ->. exists []. exact E.
  - destruct (match_here r (c :: s)) eqn:E.
    + injection H as ->. exists (c :: s). exact E.
    + apply IH, H.
Qed.

Lemma exec_all_from_match (r : regex) (s : text) :
  forall (skip : nat) (m : rmatch_result),
    In m (exec_all r s skip) -> exists t, match_here r t = Some m.
Proof.
  induction s as [|c s IH]; intros skip m H.
  - destruct skip; cbn [exec_all] in H; [|destruct H].
    destruct (match_here r []) eqn:E; [|destruct H].
    destruct H as [<-|[]]. exists []. exact E.
  - destruct skip; cbn [exec_all] in H; [|apply (IH _ _ H)].
    destruct (match_here r (c :: s)) eqn:E; [|apply (IH _ _ H)].
    destruct H as [<-|H]; [exists (c :: s); exact E | apply (IH _ _ H)].
Qed.

Lemma accepts_seqs_prefix (pres : list regex) (r : regex) :
  forall s n cs s' n' cs',
    accepts (fold_right Seq r pres) s n cs s' n' cs' ->
    exists a s1 cs1,
      s = a ++ s1 /\ accepts r s1 (n + List.length a) cs1 s' n' cs'.
Proof.
  induction pres as [|p pres IH]; intros s n cs s' n' cs' H.
  - exists [], s, cs. rewrite Nat.add_0_r. auto.
  - cbn [fold_right accepts] in H. destruct H as (s1 & n1 & cs1 & H1 & H2).
    destruct (accepts_frame _ _ _ _ _ _ _ H1) as (l & -> & -> & _).
    destruct (IH _ _ _ _ _ _ H2) as (a & s2 & cs2 & -> & H3).
    exists (l ++ a), s2, cs2. rewrite <- app_assoc, length_app, Nat.add_assoc. auto.
Qed.

(** The text of a capture group: when the pattern is a sequence in which the
    group [S i] stands between patterns without groups after it, a match
    splits the text as [a ++ l ++ b], where the body of the group accepts
    exactly [l], and [l] is what the group holds. *)
Lemma capture_of_match (pres : list regex) (i : nat) (body post : regex)
    (t : text) (m : rmatch_result) :
  groupless body = true ->
  groupless post = true ->
  match_here (fold_right Seq (Seq (Group (S i) body) post) pres) t = Some m ->
  exists a l b cs,
    t = a ++ l ++ b /\
    accepts body (l ++ b) (List.length a) cs b (List.length a + List.length l) cs /\
    group m (S i) = Some l /\
    exists s' n' cs',
      accepts post b (List.length a + List.length l)
        ((S i, (List.length a, List.length a + List.length l)) :: cs) s' n' cs'.
Proof.
  intros Gb Gp H. unfold match_here in H.
  apply rmatch_sound in H. destruct H as (s' & n' & cs' & H & Hm).
  injection Hm as <-.
  apply accepts_seqs_prefix in H. destruct H as (a & s1 & cs1 & -> & H).
  cbn [accepts plus] in H. destruct H as (s2 & n2 & cs2 & (cs0 & Hb & ->) & Hp).
  destruct (accepts_frame _ _ _ _ _ _ _ Hb) as (l & -> & -> & G0).
  destruct (accepts_frame _ _ _ _ _ _ _ Hp) as (l2 & -> & -> & G2).
  rewrite (G0 Gb) in *. rewrite (G2 Gp).
  exists a, l, (l2 ++ s'), cs1. split; [reflexivity|]. split; [exact Hb|].
  split; [|eauto].
  unfold group. cbn [m_groups map lookup fst snd Nat.eqb].
  rewrite Nat.eqb_refl. f_equal. apply slice_span.
Qed.

Lemma digit_val_bound (c : ascii) : isDigit c = true -> (0 <= digit_val c <= 9)%Z.
Proof.
  unfold isDigit, between, digit_val. intros H.
  apply andb_true_iff in H. destruct H as [H1 H2].
  apply Nat.leb_le in H1, H2. lia.
Qed.

Lemma decimal_bound (l : text) :
  forallb isDigit l = true -> List.length l <= 3 -> (0 <= decimal l <= 999)%Z.
Proof.
  intros H Hl. unfold decimal.
  destruct l as [|c1 [|c2 [|c3 [|c4 l]]]]; cbn [fold_left forallb] in *;
    try (simpl in Hl; lia);
    repeat match goal with
           | H : _ && _ = true |- _ => apply andb_true_iff in H; destruct H
           | H : isDigit _ = true |- _ => apply digit_val_bound in H
           end; lia.
Qed.

Lemma allScores_capture (t : text) (m : rmatch_result) :
  match_here allScoresRegex t = Some m ->
  exists a l b,
    t = a ++ l ++ b /\ group m 1 = Some l /\
    forallb isDigit l = true /\ 1 <= List.length l <= 3.
Proof.
  intros H.
  change allScoresRegex
    with (fold_right Seq
            (Seq (Group 1 (Rep isDigit 1 (Some 3)))
                 (seqs [opt (chr "/"); opt (chr "5"); opt (chr ")")]))
            [str_i "Score:"; star isSpace;
             opt (Seq (plus isWord) (star isSpace)); opt (chr "(")]) in H.
  apply capture_of_match in H; [|reflexivity|reflexivity].
  destruct H as (a & l & b & cs & -> & Hb & Hg & _).
  cbn [accepts] in Hb. destruct Hb as (l' & E & Hd & En & Hlo & Hhi & _).
  assert (List.length l' = List.length l) by lia.
  assert (l' = l).
  { clear - E H. revert l' E H. induction l as [|c l IH]; intros [|c' l'] E H;
      try discriminate H; [reflexivity|].
    injection E as -> E. f_equal. apply IH; [exact E | simpl in H; lia]. }
  subst l'. exists a, l, b. repeat split; auto.
Qed.

(** X6. Every score [extractAllScores] returns is an integer from 0 to 999,
    whatever the text. *)
Theorem extractAllScores_bounded (feedbackText : option text) :
  Forall (fun z => (0 <= z <= 999)%Z) (extractAllScores feedbackText).
Proof.
  destruct feedbackText as [t|]; [|constructor].
  rewrite extractAllScores_exec. apply Forall_forall. intros z Hz.
  unfold scores_of in Hz. apply in_flat_map in Hz. destruct Hz as (m & Hm & Hz).
  apply exec_all_from_match in Hm. destruct Hm as (u & Hm).
  apply allScores_capture in Hm. destruct Hm as (a & l & b & _ & Hg & Hd & Hl).
  rewrite Hg in Hz. destruct l as [|c l]; [destruct Hz|].
  destruct Hz as [<-|[]]. apply decimal_bound; [exact Hd | lia].
Qed.

Lemma score_capture (t : text) (m : rmatch_result) :
  match_here scoreRegex t = Some m ->
  exists c, group m 2 = Some [c] /\ isDigit c = true.
Proof.
  intros H.
  change scoreRegex
    with (fold_right Seq
            (Seq (Group 2 (Chr isDigit)) (seqs [str "/5)"]))
            [str_i "Score:"; star isSpace;
             Group 1 (alts [str_i "Stretch"; str_i "Commitment"; str_i "Robust";
                            str_i "Warning"; str_i "Offtrack"]);
             star isSpace; chr "("]) in H.
  apply capture_of_match in H; [|reflexivity|reflexivity].
  destruct H as (a & l & b & cs & -> & Hb & Hg & _).
  cbn [accepts] in Hb. destruct Hb as (c & E & Hd & En & _).
  assert (List.length l = 1) by lia.
  destruct l as [|c' [|c'' l]]; try discriminate.
  injection E as ->. exists c. auto.
Qed.

(** X7. The score the review handler reads off a reply is null or an integer
    from 0 to 9: one digit, not restricted to the weights 1 to 5. *)
Theorem parseScore_bounded (feedback : text) :
  match parseScore feedback with
  | Some z => (0 <= z <= 9)%Z
  | None => True
  end.
Proof.
  unfold parseScore. destruct (search scoreRegex feedback) as [m|] eqn:E; [|exact I].
  apply search_from_match in E. destruct E as (t & E).
  apply score_capture in E. destruct E as (c & -> & Hd).
  unfold decimal. cbn [fold_left]. apply digit_val_bound in Hd. lia.
Qed.

(** ** What the review handler does, path by path *)

Lemma text_eqb_eq (a b : text) : text_eqb a b = true <-> a = b.
Proof.
  split; [|intros ->; apply text_eqb_refl].
  revert b. induction a as [|x a IH]; intros [|y b] H; try discriminate H; [reflexivity|].
  simpl in H. apply andb_true_iff in H. destruct H as [H1 H2].
  apply Ascii.eqb_eq in H1. subst y. f_equal. apply IH, H2.
Qed.

(** X8. In server.js a question-1 upload is never reviewed: whatever the
    document, the name table and the model, the handler sends nothing to
    the model and changes no table. *)
Theorem server_question_one_never_reviewed (env : Env) (req : CheckRequest) (w : World) :
  parseInt (questionNumber req) = Some 1%Z ->
  untouched w (run (Server.check_file env req) w).
Proof.
  intros Hq. unfold untouched. unfold_handler Server.check_file. rewrite Hq.
  destruct (file req) as [f|]; [|repeat split; reflexivity].
  cbv beta iota.
  destruct (extractText env _ _ _) as [docText|err]; [|repeat split; reflexivity].
  cbn [world sent].
  match goal with |- context [existsb ?p ?l] => destruct (existsb p l) end;
    [|repeat split; reflexivity].
  destruct (negb (nonempty docText) || negb (nonempty (trim docText)));
    repeat split; reflexivity.
Qed.

Lemma server_question_one_never_reviewed_witness :
  untouched acme_world
    (run (Server.check_file
            (replying (reading (MkEnv (fun _ _ _ => Err []) (fun _ => Err [])
                                      (fun _ => Err []) [] (fun _ _ _ _ => [])
                                      (fun _ => []))
                               (lit "Acme Corp OHS policy, approved 2024."))
                      (lit "Score: Stretch (5/5)"))
            (upload "1")) acme_world).
Proof. apply server_question_one_never_reviewed. reflexivity. Defined.

Lemma server_check_file_run (env : Env) (req : CheckRequest) (w : World) :
  run (Server.check_file env req) w = server_check_file_paths env req w.
Proof.
  unfold server_check_file_paths, review_step, answered, after_unlink, after_prompt,
    no_name_server.
  unfold_handlers Server.check_file Server.identity_step.
  destruct (file req) as [f|]; [|reflexivity].
  destruct (parseInt (questionNumber req)) as [[|p|p]|]; try reflexivity.
  all: cbv beta iota.
  all: destruct (extractText env (path f) (originalname f) None) as [docText|err];
         [|reflexivity].
  all: cbn [world sent tmp_files].
  all: destruct (existsb (text_eqb (path f)) (tmp_files w)); [|reflexivity].
  all: cbn [negb].
  all: destruct (negb (nonempty docText) || negb (nonempty (trim docText)));
         [reflexivity|].
  all: match goal with |- context [(?z =? 1)%Z] => destruct (z =? 1)%Z end;
         [reflexivity|].
  all: cbn [world sent supplier_names].
  all: destruct (assoc (email req) (supplier_names w)) as [name|]; [|reflexivity].
  all: destruct (nonempty name); [|reflexivity].
  all: cbn [negb].
  all: destruct (tokenMatch docText name); [|reflexivity].
  all: cbn [negb].
  all: match goal with |- context [callGroq ?e ?p] => destruct (callGroq e p) end;
         reflexivity.
Qed.

Lemma part001_check_file_run (env : Env) (req : CheckRequest) (w : World) :
  run (Part001.check_file env req) w = part001_check_file_paths env req w.
Proof.
  unfold part001_check_file_paths, review_step, answered, after_unlink, after_prompt.
  unfold_handler Part001.check_file.
  destruct (file req) as [f|]; [|reflexivity].
  destruct (parseInt (questionNumber req)) as [[|p|p]|]; try reflexivity.
  all: cbn [world sent].
  all: match goal with
       | |- context [negb (nonempty ?n)] => destruct (nonempty n)
       end; cbn [negb]; [|reflexivity].
  all: match goal with
       | |- context [extractText ?e ?a ?b ?c] =>
           destruct (extractText e a b c) as [docText|err]
       end; [|reflexivity].
  all: cbn [world sent tmp_files].
  all: destruct (existsb (text_eqb (path f)) (tmp_files w)); [|reflexivity].
  all: cbn [negb].
  all: destruct (negb (nonempty docText) || negb (nonempty (trim docText)));
         [reflexivity|].
  all: rewrite hasMatch_true; cbn [negb].
  all: match goal with |- context [callGroq ?e ?p] => destruct (callGroq e p) end;
         reflexivity.
Qed.

Lemma review_step_outcome (env : Env) (req : CheckRequest) (q : Z) (prompt : text)
    (f : UploadedFile) (w : World) :
  review_outcome env req w (review_step env req q prompt (after_unlink f w)) q prompt.
Proof.
  unfold review_outcome, review_step.
  destruct (callGroq env prompt); cbn; auto.
Qed.

(** X9. The guards of server.js. A run of its review handler either sends
    nothing to the model and stores nothing, or all of this holds: the
    upload is there, the question number is valid and not 1, the extracted
    text is readable, a name is registered for the subject and passes the
    token-overlap check against the text; then the prompt is sent once, and
    a verdict is stored only when the model replied, holding the reply as it
    came, whether or not a score can be read off it. *)
Theorem server_review_is_gated (env : Env) (req : CheckRequest) (w : World) :
  let o := run (Server.check_file env req) w in
  (groq_calls (final o) = groq_calls w /\ answers (final o) = answers w) \/
  exists f q docText name,
    file req = Some f /\
    parseInt (questionNumber req) = Some q /\ q <> 0%Z /\ q <> 1%Z /\
    extractText env (path f) (originalname f) None = Ok docText /\
    nonempty (trim docText) = true /\
    assoc (email req) (supplier_names w) = Some name /\
    tokenMatch docText name = true /\
    review_outcome env req w o q (reviewPrompt env q docText (userExplanation req) None).
Proof.
  cbv zeta. rewrite server_check_file_run. unfold server_check_file_paths.
  destruct (file req) as [f|] eqn:Hf; [|left; split; reflexivity].
  destruct (parseInt (questionNumber req)) as [[|p|p]|] eqn:Hq;
    try (left; split; reflexivity).
  all: destruct (extractText env (path f) (originalname f) None) as [docText|err] eqn:Hx;
         [|left; split; reflexivity].
  all: destruct (existsb (text_eqb (path f)) (tmp_files w)); cbn [negb];
         [|left; split; reflexivity].
  all: destruct (nonempty docText); cbn [negb orb]; [|left; split; reflexivity].
  all: destruct (nonempty (trim docText)) eqn:Ht; cbn [negb];
         [|left; split; reflexivity].
  all: match goal with |- context [(?z =? 1)%Z] => destruct (z =? 1)%Z eqn:H1 end;
         [left; split; reflexivity|].
  all: apply Z.eqb_neq in H1.
  all: destruct (assoc (email req) (supplier_names w)) as [name|] eqn:Ha;
         [|left; split; reflexivity].
  all: destruct (nonempty name); cbn [negb]; [|left; split; reflexivity].
  all: destruct (tokenMatch docText name) eqn:Hm; cbn [negb];
         [|left; split; reflexivity].
  all: right; eexists f, _, docText, name.
  all: repeat (split; [first [reflexivity | assumption | discriminate]|]).
  all: apply review_step_outcome.
Qed.

(** X10. The guards of part_001. A run of its review handler either sends
    nothing to the model and stores nothing, or: the upload is there, the
    question number is valid, a name is registered for the subject (not
    blank) and the extracted text is readable; the text itself is not held
    to the name. Then the prompt, which carries the trimmed registered name,
    is sent once, and a verdict is stored only when the model replied. *)
Theorem part001_review_is_gated (env : Env) (req : CheckRequest) (w : World) :
  let o := run (Part001.check_file env req) w in
  (groq_calls (final o) = groq_calls w /\ answers (final o) = answers w) \/
  exists f q docText name,
    file req = Some f /\
    parseInt (questionNumber req) = Some q /\ q <> 0%Z /\
    assoc (email req) (supplier_names w) = Some name /\
    nonempty (trim name) = true /\
    extractText env (path f) (originalname f) (Some (Part001.ocr_language req))
    = Ok docText /\
    nonempty (trim docText) = true /\
    review_outcome env req w o q
      (reviewPrompt env q docText (userExplanation req) (Some (trim name))).
Proof.
  cbv zeta. rewrite part001_check_file_run. unfold part001_check_file_paths.
  destruct (file req) as [f|] eqn:Hf; [|left; split; reflexivity].
  destruct (parseInt (questionNumber req)) as [[|p|p]|] eqn:Hq;
    try (left; split; reflexivity).
  all: cbv zeta.
  all: destruct (assoc (email req) (supplier_names w)) as [name|] eqn:Ha;
         [|left; split; reflexivity].
  all: destruct (nonempty (trim name)) eqn:Hn; cbn [negb]; [|left; split; reflexivity].
  all: destruct (extractText env (path f) (originalname f)
                   (Some (Part001.ocr_language req))) as [docText|err] eqn:Hx;
         [|left; split; reflexivity].
  all: destruct (existsb (text_eqb (path f)) (tmp_files w)); cbn [negb];
         [|left; split; reflexivity].
  all: destruct (nonempty docText); cbn [negb orb]; [|left; split; reflexivity].
  all: destruct (nonempty (trim docText)) eqn:Ht; cbn [negb];
         [|left; split; reflexivity].
  all: right; eexists f, _, docText, name.
  all: repeat (split; [first [reflexivity | assumption | discriminate]|]).
  all: apply review_step_outcome.
Qed.

Lemma review_step_well_behaved (env : Env) (req : CheckRequest) (q : Z) (prompt : text)
    (f : UploadedFile) (w : World) :
  file req = Some f ->
  well_behaved req w (review_step env req q prompt (after_unlink f w)).
Proof.
  intros Hf. unfold well_behaved, review_step.
  destruct (callGroq env prompt); cbn; repeat split; eauto.
Qed.

(** X11. Every run of the review handler, in both services and whatever the
    collaborators do (text extraction or the model may throw), sends exactly
    one response and ends without a rejected promise; it never changes the
    name table or the sessions, and the only file it can remove is the
    upload of the request. *)
Theorem check_file_well_behaved (env : Env) (req : CheckRequest) (w : World) :
  well_behaved req w (run (Server.check_file env req) w) /\
  well_behaved req w (run (Part001.check_file env req) w).
Proof.
  rewrite server_check_file_run, part001_check_file_run.
  unfold server_check_file_paths, part001_check_file_paths.
  assert (Hstay : forall code b, well_behaved req w (answered code b w)).
  { intros code b. unfold well_behaved, answered. cbn. repeat split; eauto. }
  assert (Hgone : forall f code b,
             file req = Some f -> well_behaved req w (answered code b (after_unlink f w))).
  { intros f code b Hf. unfold well_behaved, answered. cbn. repeat split; eauto. }
  destruct (file req) as [f|] eqn:Hf; [|split; apply Hstay].
  destruct (parseInt (questionNumber req)) as [[|p|p]|]; try (split; apply Hstay).
  all: cbv zeta; split.
  all: repeat match goal with
         | |- well_behaved _ _ (answered _ _ _) =>
             first [apply Hstay | apply Hgone; first [reflexivity | assumption]]
         | |- well_behaved _ _ (review_step _ _ _ _ _) =>
             apply review_step_well_behaved; first [reflexivity | assumption]
         | |- well_behaved _ _ (if ?b then _ else _) => destruct b
         | |- well_behaved _ _ (match ?x with _ => _ end) => destruct x
         end.
Qed.

(** C8. A review request (a stored upload and a valid question number)
    whose extracted text is empty or white space only. In server.js it
    ends in the rejected-unreadable outcome whatever the name table holds:
    the user-visible message, no call of the model, nothing persisted. In
    part_001 it does so when a name is registered for the subject; for a
    subject without a registered name (or with a blank one) part_001 never
    extracts the text: it answers with the missing-name message, which is
    not the rejected-unreadable outcome, and the upload stays on disk. *)
Theorem blank_document_and_missing_name
    (env : Env) (req : CheckRequest) (w : World) (f : UploadedFile) (q : Z)
    (docText : text) :
  file req = Some f ->
  parseInt (questionNumber req) = Some q ->
  q <> 0%Z ->
  existsb (text_eqb (path f)) (tmp_files w) = true ->
  forallb isSpace docText = true ->
  extractText env (path f) (originalname f) None = Ok docText ->
  extractText env (path f) (originalname f) (Some (Part001.ocr_language req)) = Ok docText ->
  rejected_unreadable w (run (Server.check_file env req) w) /\
  (forall name,
      assoc (email req) (supplier_names w) = Some name ->
      nonempty (trim name) = true ->
      rejected_unreadable w (run (Part001.check_file env req) w)) /\
  (match assoc (email req) (supplier_names w) with
   | Some name => trim name = []
   | None => True
   end ->
   run (Part001.check_file env req) w = answered 200 no_name_part001 w /\
   ~ rejected_unreadable w (run (Part001.check_file env req) w) /\
   existsb (text_eqb (path f)) (tmp_files (final (run (Part001.check_file env req) w)))
   = true).
Proof.
  intros Hf Hq Hq0 Hd Hb Hs Hp.
  assert (Hu : negb (nonempty docText) || negb (nonempty (trim docText)) = true).
  { rewrite (trim_blank _ Hb). apply orb_true_r. }
  rewrite server_check_file_run, part001_check_file_run.
  unfold server_check_file_paths, part001_check_file_paths.
  rewrite Hf, Hq, Hs, Hp, Hd, Hu. cbv zeta. cbn [negb].
  split; [|split].
  - destruct q; [contradiction| |]; unfold rejected_unreadable, untouched, answered;
      cbn; repeat split; reflexivity.
  - intros name Hn Hne. rewrite Hn, Hne.
    destruct q; [contradiction| |]; unfold rejected_unreadable, untouched, answered;
      cbn; repeat split; reflexivity.
  - intros Hno.
    assert (Hblank : nonempty match assoc (email req) (supplier_names w) with
                              | Some n => trim n
                              | None => []
                              end = false).
    { destruct (assoc (email req) (supplier_names w)); [rewrite Hno|]; reflexivity. }
    rewrite Hblank. cbn [negb].
    destruct q; [contradiction| |]; (split; [reflexivity|]); (split; [|exact Hd]);
      unfold rejected_unreadable, answered; cbn [response]; intros [H _];
      vm_compute in H; discriminate H.
Qed.

Lemma blank_document_and_missing_name_witness :
  let env := reading (MkEnv (fun _ _ _ => Err []) (fun _ => Err []) (fun _ => Err []) []
                            (fun _ _ _ _ => []) (fun _ => []))
                     (lit "   " ++ [LF] ++ lit "  ") in
  let unregistered := MkWorld [] [] [] [lit "tmp/3f9a"] [] in
  rejected_unreadable acme_world (run (Server.check_file env (upload "2")) acme_world) /\
  rejected_unreadable acme_world (run (Part001.check_file env (upload "2")) acme_world) /\
  rejected_unreadable unregistered (run (Server.check_file env (upload "2")) unregistered) /\
  ~ rejected_unreadable unregistered (run (Part001.check_file env (upload "2")) unregistered).
Proof.
  cbv zeta.
  pose proof (@blank_document_and_missing_name
                (reading (MkEnv (fun _ _ _ => Err []) (fun _ => Err []) (fun _ => Err []) []
                                (fun _ _ _ _ => []) (fun _ => []))
                         (lit "   " ++ [LF] ++ lit "  "))
                (upload "2") acme_world
                (MkFile (lit "tmp/3f9a") (lit "policy.txt")) 2%Z
                (lit "   " ++ [LF] ++ lit "  ")
                eq_refl eq_refl ltac:(lia) eq_refl eq_refl eq_refl eq_refl) as Ha.
  pose proof (@blank_document_and_missing_name
                (reading (MkEnv (fun _ _ _ => Err []) (fun _ => Err []) (fun _ => Err []) []
                                (fun _ _ _ _ => []) (fun _ => []))
                         (lit "   " ++ [LF] ++ lit "  "))
                (upload "2") (MkWorld [] [] [] [lit "tmp/3f9a"] [])
                (MkFile (lit "tmp/3f9a") (lit "policy.txt")) 2%Z
                (lit "   " ++ [LF] ++ lit "  ")
                eq_refl eq_refl ltac:(lia) eq_refl eq_refl eq_refl eq_refl) as Hu.
  destruct Ha as (Ha1 & Ha2 & _). destruct Hu as (Hu1 & _ & Hu3).
  split; [exact Ha1|]. split; [exact (Ha2 (lit "Acme Corp") eq_refl eq_refl)|].
  split; [exact Hu1|]. exact (proj1 (proj2 (Hu3 I))).
Defined.

(** X12. The session summary of part_001 ends in a rejected promise whenever
    the subject has stored answers: after the response is sent (or the
    error response, when the model failed), the statements that follow the
    [try] statement throw "answers is not defined". The session summary of
    server.js never ends rejected. *)
Theorem part001_summary_rejects_after_responding (env : Env) (e : text) (w : World) :
  (answers_of e w <> [] ->
   let o := run (Part001.session_summary env e) w in
   rejected o = Some (lit "answers is not defined") /\
   (exists r, response o = Some r) /\
   response_field "detailedScores" o = None) /\
  rejected (run (Server.session_summary env e) w) = None.
Proof.
  split.
  - intros H. cbv zeta. unfold_handler Part001.session_summary.
    destruct (answers_of e w) as [|r rows]; [contradiction|].
    destruct (callGroq env _); cbn; eauto.
  - unfold_handler Server.session_summary.
    destruct (answers_of e w) as [|r rows]; [reflexivity|].
    destruct (callGroq env _); [|reflexivity].
    cbv beta iota. destruct (Server.read_summary env a). reflexivity.
Qed.

Lemma part001_summary_rejects_after_responding_witness :
  rejected (run (Part001.session_summary
                   (MkEnv (fun _ _ _ => Err []) (fun _ => Ok (lit "Fine."))
                          (fun _ => Err []) [] (fun _ _ _ _ => []) (fun _ => []))
                   subject)
                (stored [lit "Score: Robust (3/5)"]))
  = Some (lit "answers is not defined").
Proof.
  apply (@part001_summary_rejects_after_responding
           (MkEnv (fun _ _ _ => Err []) (fun _ => Ok (lit "Fine."))
                  (fun _ => Err []) [] (fun _ _ _ _ => []) (fun _ => []))
           subject (stored [lit "Score: Robust (3/5)"])).
  vm_compute. discriminate.
Defined.

(** ** The stores: upsert and lookup *)

Lemma same_key_spec (e : text) (q : Z) (r : Answer) :
  same_key e q r = true <-> key_of r = (e, q).
Proof.
  unfold same_key, key_of. rewrite andb_true_iff, text_eqb_eq, Z.eqb_eq.
  split; [intros [-> ->]; reflexivity | intros H; injection H; auto].
Qed.

Lemma same_key_of (e : text) (q : Z) (r r' : Answer) :
  key_of r = key_of r' -> same_key e q r = same_key e q r'.
Proof. unfold same_key, key_of. intros H. injection H as -> ->. reflexivity. Qed.

Section UpsertRow.
Variables (e : text) (q : Z) (change : Answer -> Answer) (fresh : Answer).
Hypothesis change_key : forall r, key_of r = (e, q) -> key_of (change r) = (e, q).
Hypothesis fresh_key : key_of fresh = (e, q).

Lemma lookup_upsert_row_same (rows : list Answer) :
  lookup_answer e q (upsert_row e q change fresh rows)
  = Some match lookup_answer e q rows with
         | Some r => change r
         | None => fresh
         end.
Proof.
  unfold lookup_answer. induction rows as [|r rows IH]; cbn [upsert_row find].
  - rewrite (proj2 (same_key_spec e q fresh) fresh_key). reflexivity.
  - destruct (same_key e q r) eqn:E; cbn [find].
    + apply same_key_spec in E.
      rewrite (proj2 (same_key_spec e q (change r)) (change_key E)). reflexivity.
    + rewrite E. exact IH.
Qed.

Lemma lookup_upsert_row_other (e' : text) (q' : Z) (rows : list Answer) :
  (e', q') <> (e, q) ->
  lookup_answer e' q' (upsert_row e q change fresh rows) = lookup_answer e' q' rows.
Proof.
  intros Hne. unfold lookup_answer.
  assert (Hoff : forall r, key_of r = (e, q) -> same_key e' q' r = false).
  { intros r Hr. destruct (same_key e' q' r) eqn:E; [|reflexivity].
    apply same_key_spec in E. congruence. }
  induction rows as [|r rows IH]; cbn [upsert_row find].
  - rewrite (Hoff fresh fresh_key). reflexivity.
  - destruct (same_key e q r) eqn:E; cbn [find].
    + apply same_key_spec in E. rewrite (Hoff _ (change_key E)), (Hoff _ E). reflexivity.
    + rewrite IH. reflexivity.
Qed.

Lemma keys_upsert_row (rows : list Answer) :
  map key_of (upsert_row e q change fresh rows)
  = if existsb (same_key e q) rows then map key_of rows else map key_of rows ++ [(e, q)].
Proof.
  induction rows as [|r rows IH]; cbn [upsert_row existsb map app].
  - rewrite fresh_key. reflexivity.
  - destruct (same_key e q r) eqn:E; cbn [orb map].
    + apply same_key_spec in E. rewrite (change_key E), E. reflexivity.
    + rewrite IH. destruct (existsb (same_key e q) rows); reflexivity.
Qed.

Lemma keys_unique_upsert_row (rows : list Answer) :
  keys_unique rows -> keys_unique (upsert_row e q change fresh rows).
Proof.
  unfold keys_unique. intros H. rewrite keys_upsert_row.
  destruct (existsb (same_key e q) rows) eqn:E; [exact H|].
  apply NoDup_app; [exact H | repeat constructor; intros [] | ].
  intros k Hk [<-|[]].
  apply in_map_iff in Hk. destruct Hk as (r & Hr & Hin).
  assert (existsb (same_key e q) rows = true); [|congruence].
  apply existsb_exists. exists r. split; [exact Hin | apply same_key_spec, Hr].
Qed.
End UpsertRow.

Lemma upsert_feedback_as_row (e : text) (q : Z) (fb stamp : text) (rows : list Answer) :
  upsert_feedback e q fb stamp rows
  = upsert_row e q
      (fun r => MkAnswer e q (answer r) (Some fb) (skip_reason r) (Some stamp))
      (MkAnswer e q None (Some fb) None (Some stamp)) rows.
Proof.
  induction rows as [|r rows IH]; cbn [upsert_feedback upsert_row]; [reflexivity|].
  destruct (same_key e q r); [reflexivity | rewrite IH; reflexivity].
Qed.

(** X13. The verdict a review stores can be read back under its key: it
    holds the model's reply and the time, keeps the answer and the skip
    reason the row had, and replaces the earlier verdict of that question;
    the rows of every other key read as before, and keys that were unique
    stay unique. *)
Theorem verdict_upsert_round_trip (e : text) (q : Z) (fb stamp : text) (rows : list Answer) :
  let rows' := upsert_feedback e q fb stamp rows in
  lookup_answer e q rows'
  = Some (MkAnswer e q
            (match lookup_answer e q rows with Some r => answer r | None => None end)
            (Some fb)
            (match lookup_answer e q rows with Some r => skip_reason r | None => None end)
            (Some stamp)) /\
  (forall e' q', (e', q') <> (e, q) ->
                 lookup_answer e' q' rows' = lookup_answer e' q' rows) /\
  (keys_unique rows -> keys_unique rows').
Proof.
  cbv zeta. rewrite upsert_feedback_as_row. split; [|split].
  - rewrite lookup_upsert_row_same by reflexivity.
    destruct (lookup_answer e q rows); reflexivity.
  - intros e' q' H. apply lookup_upsert_row_other; auto.
  - apply keys_unique_upsert_row; auto.
Qed.

(** ** Saving answers, skipping, overriding *)

(** X14. Saving an answer. In server.js the row of the question keeps the
    review text it had. In part_001 the upsert writes the review text as
    well: the answer "No" stores an Offtrack line, which the roll-up reads
    as the score 1, and any other answer sets the review text to null, so a
    verdict stored for that question is gone. Both store the answer under
    the key and answer with success. *)
Theorem save_answer_and_review_text
    (env : Env) (refusal : text) (req : AnswerRequest) (w : World) (q : Z) :
  present (sa_email req) = true ->
  present (sa_questionNumber req) = true ->
  present (sa_answer req) = true ->
  parseInt (sa_questionNumber req) = Some q ->
  let e := field_text (sa_email req) in
  let before := lookup_answer e q (answers w) in
  let s := run (server_save_answer env refusal req) w in
  let p := run (part001_save_answer env refusal req) w in
  response s = Some (MkResponse 200 success_true) /\
  response p = Some (MkResponse 200 success_true) /\
  option_map answer (lookup_answer e q (answers (final s))) = Some (sa_answer req) /\
  option_map answer (lookup_answer e q (answers (final p))) = Some (sa_answer req) /\
  option_map upload_feedback (lookup_answer e q (answers (final s)))
  = Some (match before with Some r => upload_feedback r | None => None end) /\
  option_map upload_feedback (lookup_answer e q (answers (final p)))
  = Some (if text_eqb (field_text (sa_answer req)) (lit "No")
          then Some answered_no else None) /\
  extractAllScores (Some answered_no) = [1%Z].
Proof.
  intros He Hq Ha Hp. cbv zeta.
  unfold_handler server_save_answer. unfold_handler part001_save_answer.
  rewrite He, Hq, Ha, Hp. cbn [negb orb world sent answers set_answers].
  rewrite !lookup_upsert_row_same by reflexivity.
  destruct (lookup_answer (field_text (sa_email req)) q (answers w));
    repeat split; reflexivity.
Qed.

Lemma save_answer_and_review_text_witness :
  let req := MkAnswerRequest (Some subject) (Some (lit "1")) (Some (lit "Yes")) in
  let env := MkEnv (fun _ _ _ => Err []) (fun _ => Err []) (fun _ => Err [])
                   (lit "2024-05-01T10:00:00.000Z") (fun _ _ _ _ => []) (fun _ => []) in
  let w := stored [lit "Score: Stretch (5/5)"] in
  option_map upload_feedback
    (lookup_answer subject 1 (answers (final (run (server_save_answer env [] req) w))))
  = Some (Some (lit "Score: Stretch (5/5)")) /\
  option_map upload_feedback
    (lookup_answer subject 1 (answers (final (run (part001_save_answer env [] req) w))))
  = Some None.
Proof.
  cbv zeta.
  pose proof (@save_answer_and_review_text
                (MkEnv (fun _ _ _ => Err []) (fun _ => Err []) (fun _ => Err [])
                       (lit "2024-05-01T10:00:00.000Z") (fun _ _ _ _ => []) (fun _ => []))
                [] (MkAnswerRequest (Some subject) (Some (lit "1")) (Some (lit "Yes")))
                (stored [lit "Score: Stretch (5/5)"]) 1%Z
                eq_refl eq_refl eq_refl eq_refl) as H.
  cbv zeta in H. destruct H as (_ & _ & _ & _ & Hs & Hp & _).
  split; [exact Hs | exact Hp].
Defined.

(** X15. Skipping a requirement, part_001. With an email and a question
    number that parses, the row of the question is written with the answer
    "Skipped" and the Offtrack line, replacing whatever review text was
    stored; both the review parser and the roll-up read that line as the
    score 1. Without an email or a question number the handler answers 400
    and changes nothing. *)
Theorem skip_requirement_scores_one (env : Env) (req : AnswerRequest) (w : World) :
  (forall q,
      present (sa_email req) = true ->
      present (sa_questionNumber req) = true ->
      parseInt (sa_questionNumber req) = Some q ->
      let e := field_text (sa_email req) in
      let o := run (skip_requirement env req) w in
      response o = Some (MkResponse 200 success_true) /\
      lookup_answer e q (answers (final o))
      = Some (MkAnswer e q (Some (lit "Skipped")) (Some requirement_skipped)
                (match lookup_answer e q (answers w) with
                 | Some r => skip_reason r
                 | None => None
                 end)
                (Some (now env)))) /\
  (present (sa_email req) && present (sa_questionNumber req) = false ->
   run (skip_requirement env req) w = answered 400 missing_fields w) /\
  parseScore requirement_skipped = Some 1%Z /\
  extractAllScores (Some requirement_skipped) = [1%Z].
Proof.
  split; [|split; [|split; vm_compute; reflexivity]].
  - intros q He Hq Hp. cbv zeta. unfold_handler skip_requirement.
    rewrite He, Hq, Hp. cbn [negb orb world sent answers set_answers].
    rewrite lookup_upsert_row_same by reflexivity.
    destruct (lookup_answer (field_text (sa_email req)) q (answers w));
      split; reflexivity.
  - intros H. unfold_handler skip_requirement. unfold answered.
    destruct (present (sa_email req)); cbn [negb orb andb] in *; [|reflexivity].
    rewrite H. reflexivity.
Qed.

Lemma skip_requirement_scores_one_witness :
  let env := MkEnv (fun _ _ _ => Err []) (fun _ => Err []) (fun _ => Err [])
                   (lit "2024-05-01T10:00:00.000Z") (fun _ _ _ _ => []) (fun _ => []) in
  lookup_answer subject 1
    (answers (final (run (skip_requirement env
                            (MkAnswerRequest (Some subject) (Some (lit "1")) None))
                         (stored [lit "Score: Stretch (5/5)"]))))
  = Some (MkAnswer subject 1 (Some (lit "Skipped")) (Some requirement_skipped) None
            (Some (lit "2024-05-01T10:00:00.000Z"))).
Proof.
  cbv zeta.
  exact (proj2 (proj1 (@skip_requirement_scores_one
           (MkEnv (fun _ _ _ => Err []) (fun _ => Err []) (fun _ => Err [])
                  (lit "2024-05-01T10:00:00.000Z") (fun _ _ _ _ => []) (fun _ => []))
           (MkAnswerRequest (Some subject) (Some (lit "1")) None)
           (stored [lit "Score: Stretch (5/5)"])) 1%Z eq_refl eq_refl eq_refl)).
Defined.

Lemma assoc_upsert_name_same (e name : text) (l : list (text * text)) :
  assoc e (upsert_name e name l) = Some name.
Proof.
  induction l as [|[k v] l IH]; cbn [upsert_name assoc].
  - rewrite text_eqb_refl. reflexivity.
  - destruct (text_eqb k e) eqn:E; cbn [assoc].
    + rewrite text_eqb_refl. reflexivity.
    + rewrite E. exact IH.
Qed.

Lemma assoc_upsert_name_other (e e' name : text) (l : list (text * text)) :
  e' <> e -> assoc e' (upsert_name e name l) = assoc e' l.
Proof.
  intros Hne.
  assert (He : text_eqb e e' = false).
  { destruct (text_eqb e e') eqn:E; [|reflexivity].
    apply text_eqb_eq in E. congruence. }
  induction l as [|[k v] l IH]; cbn [upsert_name assoc].
  - rewrite He. reflexivity.
  - destruct (text_eqb k e) eqn:E; cbn [assoc].
    + apply text_eqb_eq in E. subst k. rewrite He. reflexivity.
    + rewrite IH. reflexivity.
Qed.

(** X16. The registered name round trip. After [/api/set-supplier-name] with
    an email and a name, [/api/get-supplier-name] for that email answers
    with exactly that name (as given, not trimmed), the names of all other
    emails are as before, and no other table changes. With a field missing
    or empty, the setter answers 400 and changes nothing. *)
Theorem supplier_name_round_trip (email supplierName : option text) (w : World) :
  let o := run (set_supplier_name email supplierName) w in
  (present email = true -> present supplierName = true ->
   response_field "supplierName" (run (get_supplier_name email) (final o))
   = Some (JStr (field_text supplierName)) /\
   (forall e', e' <> field_text email ->
               assoc e' (supplier_names (final o)) = assoc e' (supplier_names w)) /\
   answers (final o) = answers w /\ sessions (final o) = sessions w) /\
  (present email && present supplierName = false ->
   o = answered 400 (JObj [("success"%string, JBool false);
                           ("message"%string, JStr (lit "Missing fields"))]) w).
Proof.
  cbv zeta. split.
  - intros He Hn. unfold_handler set_supplier_name. unfold_handler get_supplier_name.
    rewrite He, Hn. cbn [negb orb world sent supplier_names set_supplier_names].
    rewrite assoc_upsert_name_same. repeat split; try reflexivity.
    intros e' H. cbn [answers sessions]. apply assoc_upsert_name_other, H.
  - intros H. unfold_handler set_supplier_name. unfold answered.
    destruct (present email); cbn [negb orb andb] in *; [|reflexivity].
    rewrite H. reflexivity.
Qed.

Lemma supplier_name_round_trip_witness :
  response_field "supplierName"
    (run (get_supplier_name (Some subject))
         (final (run (set_supplier_name (Some subject) (Some (lit "Acme Corp")))
                     (MkWorld [(lit "b@y.org", lit "Beta Industries")] [] [] [] []))))
  = Some (JStr (lit "Acme Corp")).
Proof.
  apply (@supplier_name_round_trip (Some subject) (Some (lit "Acme Corp"))
           (MkWorld [(lit "b@y.org", lit "Beta Industries")] [] [] [] []));
    reflexivity.
Defined.

(** ** Manual override and disagreement *)

Lemma single_answer_unique (e : text) (q : Z) (rows : list Answer) :
  keys_unique rows -> single_answer e q rows = lookup_answer e q rows.
Proof.
  unfold keys_unique, single_answer, lookup_answer.
  induction rows as [|r rows IH]; intros Hu; [reflexivity|].
  cbn [map] in Hu. apply NoDup_cons_iff in Hu. destruct Hu as [Hnot Hu].
  cbn [filter find]. destruct (same_key e q r) eqn:E; [|exact (IH Hu)].
  assert (Hnil : filter (same_key e q) rows = []).
  { destruct (filter (same_key e q) rows) as [|r' l] eqn:Ef; [reflexivity|].
    exfalso. apply Hnot.
    assert (Hin : In r' (filter (same_key e q) rows)) by (rewrite Ef; left; reflexivity).
    apply filter_In in Hin. destruct Hin as [Hin Hk].
    apply same_key_spec in E. apply same_key_spec in Hk.
    rewrite E, <- Hk. apply in_map. exact Hin. }
  rewrite Hnil. reflexivity.
Qed.

(** X17. A manual override. The audit log grows by exactly one entry, at
    its end, which records the review text of the one row of the question
    (null when that text is empty, or when the key has no row or several)
    and the new text; with unique keys that row is the one a lookup finds.
    Every row with the key then holds the new text and keeps its answer and
    skip reason; when the question has no row the table is left as it was,
    and the handler still logs and answers with success. The override is
    stored as it is: an override text that does not carry the marker
    "Score:" gives the roll-up no score for that question. *)
Theorem manual_score_logs_and_overrides
    (env : Env) (req : ManualScoreRequest) (w : World) (audit_logs : list AuditEntry) :
  let e := ms_email req in
  let q := ms_questionNumber req in
  let before := lookup_answer e q (answers w) in
  let result := manual_score env req w audit_logs in
  let w' := snd (fst result) in
  fst (fst result) = MkResponse 200 success_true /\
  snd result
  = audit_logs ++
    [MkAudit e q (lit "Manual Score Override")
       (match single_answer e q (answers w) with
        | Some r => if present (upload_feedback r) then upload_feedback r else None
        | None => None
        end)
       (newScore req) (comment req) (auditor req)] /\
  (keys_unique (answers w) -> single_answer e q (answers w) = before) /\
  lookup_answer e q (answers w')
  = option_map (fun r => MkAnswer (a_email r) (question_number r) (answer r)
                                  (Some (newScore req)) (skip_reason r) (Some (now env)))
               before /\
  (before = None -> answers w' = answers w) /\
  map key_of (answers w') = map key_of (answers w) /\
  (occurrences (newScore req) 0 = [] ->
   forall r, lookup_answer e q (answers w') = Some r ->
             extractAllScores (upload_feedback r) = []).
Proof.
  cbv zeta. unfold manual_score. cbn [fst snd set_answers answers].
  set (upd := fun r : Answer => if same_key (ms_email req) (ms_questionNumber req) r
                                then _ else r).
  assert (Hlook : lookup_answer (ms_email req) (ms_questionNumber req) (map upd (answers w))
                  = option_map upd
                      (lookup_answer (ms_email req) (ms_questionNumber req) (answers w))).
  { unfold lookup_answer. induction (answers w) as [|r rows IH]; [reflexivity|].
    cbn [map find]. destruct (same_key (ms_email req) (ms_questionNumber req) r) eqn:E.
    - unfold upd at 1. rewrite E. unfold same_key in *. cbn. rewrite E.
      cbn [option_map]. unfold upd. unfold same_key. rewrite E. reflexivity.
    - unfold upd at 1. rewrite E, E. exact IH. }
  split; [reflexivity|]. split; [reflexivity|].
  split; [apply single_answer_unique|]. split; [|split; [|split]].
  - rewrite Hlook.
    destruct (lookup_answer (ms_email req) (ms_questionNumber req) (answers w))
      as [r|] eqn:E; [|reflexivity].
    cbn [option_map]. unfold upd.
    unfold lookup_answer in E. apply find_some in E. destruct E as [_ E].
    rewrite E. reflexivity.
  - intros Hnone. unfold lookup_answer in Hnone.
    rewrite <- (map_id (answers w)) at 2. apply map_ext_in.
    intros r Hin. unfold upd.
    destruct (same_key (ms_email req) (ms_questionNumber req) r) eqn:E; [|reflexivity].
    pose proof (find_none _ _ Hnone r Hin). congruence.
  - rewrite map_map. apply map_ext. intros r. unfold upd.
    destruct (same_key (ms_email req) (ms_questionNumber req) r); reflexivity.
  - intros Hocc r Hr. rewrite Hlook in Hr.
    destruct (lookup_answer (ms_email req) (ms_questionNumber req) (answers w))
      as [r0|] eqn:E; [|discriminate Hr].
    cbn [option_map] in Hr. injection Hr as <-. unfold upd.
    unfold lookup_answer in E. apply find_some in E. destruct E as [_ E].
    rewrite E. cbn [upload_feedback].
    destruct (newScore req) as [|c t] eqn:En; [reflexivity|].
    rewrite extractAllScores_scan by discriminate.
    rewrite scan_nothing; [reflexivity|].
    intros j. match goal with |- ?b = false => destruct b eqn:Eb; [|reflexivity] end.
    apply (occurrences_complete _ 0) in Eb. rewrite Hocc in Eb. destruct Eb.
Qed.

(** X18. A disagreement never touches the stored verdicts: whatever the
    request and the collaborators do, the answers, the sessions and the
    name table are as before; the disagreement log is append-only, growing
    by one entry, which holds the model's reply, exactly when the handler
    answers 200, and staying as it was when it answers 500. *)
Theorem disagreement_leaves_verdicts
    (env : Env) (lang : option text) (prompt : option text -> option text -> text -> text)
    (req : DisagreeRequest) (w : World) (disagreements : list Disagreement) :
  let result := disagree_feedback env lang prompt req w disagreements in
  let o := fst result in
  answers (final o) = answers w /\
  sessions (final o) = sessions w /\
  supplier_names (final o) = supplier_names w /\
  ((exists feedback,
       response o = Some (MkResponse 200 (JObj [("feedback"%string, JStr feedback)])) /\
       snd result
       = disagreements ++
         [MkDisagreement (dr_email req) (dr_questionNumber req) (dr_requirement req)
            (dr_disagreeReason req) feedback (now env)]) \/
   (exists err,
       response o = Some (MkResponse 500 (JObj [("error"%string, JStr err)])) /\
       snd result = disagreements)).
Proof.
  cbv zeta. unfold disagree_feedback.
  cbv beta iota zeta delta
    [disagree_review bind ret read modify await raise unlinkSync groq world sent].
  destruct (dr_file req) as [f|].
  - destruct (extractText env (path f) (originalname f) lang) as [t|err];
      [|cbn; repeat split; right; eauto].
    cbn [world sent tmp_files].
    destruct (existsb (text_eqb (path f)) (tmp_files w));
      [|cbn; repeat split; right; eauto].
    cbv beta iota. destruct (callGroq env _);
      cbn; repeat split; solve [left; eauto | right; eauto].
  - cbv beta iota. destruct (callGroq env _);
      cbn; repeat split; solve [left; eauto | right; eauto].
Qed.

(** ** The pure helpers *)

Lemma extractScore_capture (t : text) (m : rmatch_result) :
  match_here extractScoreRegex t = Some m ->
  exists l, group m 1 = Some l /\ forallb isDigit l = true /\ 1 <= List.length l <= 3.
Proof.
  intros H.
  change extractScoreRegex
    with (fold_right Seq
            (Seq (Group 1 (Rep isDigit 1 (Some 3))) Eps)
            [str_i "score"; star isSpace;
             opt (Chr (fun c => is_char ":" c || is_char "=" c)); star isSpace]) in H.
  apply capture_of_match in H; [|reflexivity|reflexivity].
  destruct H as (a & l & b & cs & -> & Hb & Hg & _).
  cbn [accepts] in Hb. destruct Hb as (l' & E & Hd & En & Hlo & Hhi & _).
  assert (Hlen : List.length l' = List.length l) by lia.
  assert (l' = l).
  { clear - E Hlen. revert l' E Hlen. induction l as [|c l IH]; intros [|c' l'] E H;
      try discriminate H; [reflexivity|].
    injection E as -> E. f_equal. apply IH; [exact E | simpl in H; lia]. }
  subst l'. exists l. repeat split; auto.
Qed.

(** X19. The score part_000 reads off the review of a subject's folder is
    null or an integer from 0 to 999: up to three digits are taken, though
    the prompt asks for a score out of 100. It is null for a text in which
    the word "score" does not occur in any letter case. *)
Theorem extractScore_bounded (t : text) :
  match extractScore t with
  | Some z => (0 <= z <= 999)%Z
  | None => True
  end /\
  (forallb (fun j => negb (startsWith_i (lit "score") (skipn j t)))
           (seq 0 (S (List.length t))) = true ->
   extractScore t = None).
Proof.
  split.
  - unfold extractScore.
    destruct (search extractScoreRegex t) as [m|] eqn:E; [|exact I].
    apply search_from_match in E. destruct E as (u & E).
    apply extractScore_capture in E. destruct E as (l & -> & Hd & Hl).
    apply decimal_bound; [exact Hd | lia].
  - intros H. unfold extractScore.
    assert (Hs : search extractScoreRegex t = None); [|rewrite Hs; reflexivity].
    assert (Hj : forall j, startsWith_i (lit "score") (skipn j t) = false).
    { intros j. destruct (Nat.le_gt_cases j (List.length t)) as [Hle|Hgt].
      - rewrite forallb_forall in H. apply negb_true_iff. apply H.
        apply in_seq. lia.
      - rewrite skipn_all2 by lia. reflexivity. }
    clear H. induction t as [|c t IH].
    + cbn [search]. unfold match_here, extractScoreRegex.
      change (seqs (?a :: ?l)) with (Seq a (seqs l)). cbn [rmatch].
      unfold str_i. rewrite literal_mismatch; [reflexivity | apply (Hj 0)].
    + cbn [search]. unfold match_here at 1, extractScoreRegex.
      change (seqs (?a :: ?l)) with (Seq a (seqs l)). cbn [rmatch].
      unfold str_i. rewrite literal_mismatch by apply (Hj 0).
      apply IH. intros j. apply (Hj (S j)).
Qed.

Lemma extractScore_bounded_witness :
  extractScore (lit "The files show a working system. Rating: good.") = None.
Proof. apply extractScore_bounded. reflexivity. Defined.

(** X20. A registered name without a word longer than two characters (after
    trimming, lower-casing and dropping punctuation) switches the identity
    check of server.js off: the required number of matching words is 0, the
    token-overlap check accepts every document, and every readable upload
    for a question other than 1 goes to the model. *)
Theorem short_name_opens_the_gate
    (env : Env) (req : CheckRequest) (w : World) (f : UploadedFile) (q : Z)
    (docText name : text) :
  supplierWords name = [] ->
  nonempty name = true ->
  file req = Some f ->
  parseInt (questionNumber req) = Some q ->
  q <> 0%Z -> q <> 1%Z ->
  existsb (text_eqb (path f)) (tmp_files w) = true ->
  extractText env (path f) (originalname f) None = Ok docText ->
  nonempty (trim docText) = true ->
  assoc (email req) (supplier_names w) = Some name ->
  tokenMatch docText name = true /\
  run (Server.check_file env req) w
  = review_step env req q (reviewPrompt env q docText (userExplanation req) None)
      (after_unlink f w).
Proof.
  intros Hw Hne Hf Hq Hq0 Hq1 Hd Hx Ht Ha.
  assert (Hm : tokenMatch docText name = true).
  { unfold tokenMatch, matchCount. rewrite Hw. reflexivity. }
  split; [exact Hm|].
  rewrite server_check_file_run. unfold server_check_file_paths.
  rewrite Hf, Hq, Hx, Hd, Ht, Ha, Hne, Hm.
  assert (Hn : nonempty docText = true).
  { destruct docText; [discriminate Ht | reflexivity]. }
  rewrite Hn. apply Z.eqb_neq in Hq1. rewrite Hq1.
  destruct q as [|p|p]; [contradiction| |]; reflexivity.
Qed.

Lemma short_name_opens_the_gate_witness :
  let env := replying (reading (MkEnv (fun _ _ _ => Err []) (fun _ => Err [])
                                      (fun _ => Err []) [] (fun _ t _ _ => t)
                                      (fun _ => []))
                               beta_document)
                      (lit "Score: Robust (3/5)") in
  let w := MkWorld [(subject, lit "3M Co")] [] [] [lit "tmp/3f9a"] [] in
  tokenMatch beta_document (lit "3M Co") = true /\
  run (Server.check_file env (upload "2")) w
  = review_step env (upload "2") 2
      (reviewPrompt env 2 beta_document None None)
      (after_unlink (MkFile (lit "tmp/3f9a") (lit "policy.txt")) w).
Proof.
  cbv zeta.
  apply (@short_name_opens_the_gate
           (replying (reading (MkEnv (fun _ _ _ => Err []) (fun _ => Err [])
                                     (fun _ => Err []) [] (fun _ t _ _ => t)
                                     (fun _ => []))
                              beta_document)
                     (lit "Score: Robust (3/5)"))
           (upload "2") (MkWorld [(subject, lit "3M Co")] [] [] [lit "tmp/3f9a"] [])
           (MkFile (lit "tmp/3f9a") (lit "policy.txt")) 2%Z beta_document (lit "3M Co"));
    solve [reflexivity | lia].
Defined.

Lemma filter_length_le (A : Type) (p1 p2 : A -> bool) (l : list A) :
  (forall x, p1 x = true -> p2 x = true) ->
  List.length (filter p1 l) <= List.length (filter p2 l).
Proof.
  intros H. induction l as [|x l IH]; cbn [filter]; [lia|].
  destruct (p1 x) eqn:E1.
  - rewrite (H x E1). simpl. lia.
  - destruct (p2 x); simpl; lia.
Qed.

(** X27. The token-overlap check of server.js looks for the words of the
    name anywhere in the text, so it is monotone in the document: text
    added before or after an accepted document never turns the acceptance
    into a rejection. *)
Theorem tokenMatch_monotone (pre docText post supplier_name : text) :
  tokenMatch docText supplier_name = true ->
  tokenMatch (pre ++ docText ++ post) supplier_name = true.
Proof.
  unfold tokenMatch, matchCount. intros H.
  apply negb_true_iff in H. apply Nat.ltb_ge in H.
  apply negb_true_iff. apply Nat.ltb_ge.
  etransitivity; [exact H|]. apply filter_length_le.
  intros word Hw. unfold toLowerCase. rewrite !map_app, !filter_app.
  apply includes_middle. exact Hw.
Qed.

Lemma tokenMatch_monotone_witness :
  tokenMatch (lit "Cover page. " ++ lit "METRO TELWORKS" ++ lit " Appendix on Beta Industries.")
             (lit "Metro Telworks Pte Ltd") = true.
Proof. apply tokenMatch_monotone. reflexivity. Defined.

Lemma replace_all_keeps (r : regex) (s : text) :
  forall (skip : nat) (x : ascii), In x (replace_all r [] s skip) -> In x s.
Proof.
  induction s as [|c s IH]; intros skip x H.
  - destruct skip; cbn [replace_all] in H; [|exact H].
    destruct (match_here r []) as [m|]; [|exact H].
    destruct (m_length m); exact H.
  - destruct skip; cbn [replace_all] in H; [|right; apply (IH _ _ H)].
    destruct (match_here r (c :: s)) as [m|].
    + destruct (m_length m); cbn [app] in H.
      * destruct H as [<-|H]; [left; reflexivity | right; apply (IH _ _ H)].
      * right. apply (IH _ _ H).
    + destruct H as [<-|H]; [left; reflexivity | right; apply (IH _ _ H)].
Qed.

Lemma lower_idempotent (c : ascii) : lower (lower c) = lower c.
Proof. destruct c as [[] [] [] [] [] [] [] []]; reflexivity. Qed.

(** X21. The normal form of a company name in part_001 is made of lower-case
    letters and digits only, and does not depend on the letter case of the
    name. *)
Theorem normalizeCompanyName_alnum (s : text) :
  forallb alnum (normalizeCompanyName s) = true /\
  normalizeCompanyName (toLowerCase s) = normalizeCompanyName s.
Proof.
  split.
  - apply forallb_forall. intros x Hx. unfold normalizeCompanyName in Hx.
    apply replace_all_keeps in Hx. apply filter_In in Hx. apply Hx.
  - unfold normalizeCompanyName, toLowerCase. rewrite map_map.
    erewrite map_ext; [reflexivity|]. intros c. apply lower_idempotent.
Qed.

Lemma unsupported_extracts_nothing (libs : Libs) (localPath originalName ocrLang : text) :
  supported (extension originalName) = false ->
  server_extractText libs localPath originalName = Ok [] /\
  part001_extractText libs localPath originalName ocrLang = Ok [].
Proof.
  unfold supported, server_extractText, part001_extractText. intros H.
  apply orb_false_iff in H. destruct H as [H Ht].
  apply orb_false_iff in H. destruct H as [Hp Hi].
  cbv zeta. rewrite Hp, Hi, Ht. auto.
Qed.

(** X22. A file whose extension is not pdf, jpg, jpeg, png or txt (a Word
    document, say) is never read: text extraction returns the empty text
    without calling a library. The review handler of server.js then ends
    in the rejected-unreadable answer, the upload removed, whatever the
    name table holds; the review handler of part_001 does so when a name is
    registered for the subject. *)
Theorem unsupported_extension_unreadable
    (libs : Libs) (env : Env) (req : CheckRequest) (w : World) (f : UploadedFile)
    (q : Z) :
  file req = Some f ->
  parseInt (questionNumber req) = Some q ->
  q <> 0%Z ->
  existsb (text_eqb (path f)) (tmp_files w) = true ->
  supported (extension (originalname f)) = false ->
  server_extractText libs (path f) (originalname f) = Ok [] /\
  (forall ocrLang, part001_extractText libs (path f) (originalname f) ocrLang = Ok []) /\
  run (Server.check_file (server_env libs env) req) w
  = answered 200 (obj_feedback false unreadable_message) (after_unlink f w) /\
  (forall name,
      assoc (email req) (supplier_names w) = Some name ->
      nonempty (trim name) = true ->
      run (Part001.check_file (part001_env libs env) req) w
      = answered 200 (obj_feedback false unreadable_message) (after_unlink f w)).
Proof.
  intros Hf Hq Hq0 Hd Hs.
  split; [exact (proj1 (unsupported_extracts_nothing libs (path f) (originalname f) [] Hs))|].
  split; [intros ocrLang;
          exact (proj2 (unsupported_extracts_nothing libs (path f) (originalname f)
                          ocrLang Hs))|].
  rewrite server_check_file_run, part001_check_file_run.
  unfold server_check_file_paths, part001_check_file_paths.
  rewrite Hf, Hq. cbv zeta.
  cbn [server_env part001_env extractText].
  destruct (unsupported_extracts_nothing libs (path f) (originalname f)
              (Part001.ocr_language req) Hs) as [-> ->].
  rewrite Hd. split.
  - destruct q as [|p|p]; [contradiction| |]; reflexivity.
  - intros name Hn Hne. rewrite Hn, Hne.
    destruct q as [|p|p]; [contradiction| |]; reflexivity.
Qed.

Lemma unsupported_extension_unreadable_witness :
  let libs := MkLibs (fun _ => Ok (lit "Acme Corp OHS policy"))
                     (fun _ => Ok (lit "Acme Corp OHS policy"))
                     (fun _ _ => Ok (lit "Acme Corp OHS policy")) in
  let env := MkEnv (fun _ _ _ => Err []) (fun _ => Ok (lit "Score: Robust (3/5)"))
                   (fun _ => Err []) [] (fun _ _ _ _ => []) (fun _ => []) in
  let req := MkCheckRequest subject (Some (lit "2")) None None
               (Some (MkFile (lit "tmp/3f9a") (lit "OHS Policy.docx"))) in
  let unregistered := MkWorld [] [] [] [lit "tmp/3f9a"] [] in
  run (Server.check_file (server_env libs env) req) unregistered
  = answered 200 (obj_feedback false unreadable_message)
             (after_unlink (MkFile (lit "tmp/3f9a") (lit "OHS Policy.docx")) unregistered).
Proof.
  cbv zeta.
  apply (@unsupported_extension_unreadable
           (MkLibs (fun _ => Ok (lit "Acme Corp OHS policy"))
                   (fun _ => Ok (lit "Acme Corp OHS policy"))
                   (fun _ _ => Ok (lit "Acme Corp OHS policy")))
           (MkEnv (fun _ _ _ => Err []) (fun _ => Ok (lit "Score: Robust (3/5)"))
                  (fun _ => Err []) [] (fun _ _ _ _ => []) (fun _ => []))
           (MkCheckRequest subject (Some (lit "2")) None None
              (Some (MkFile (lit "tmp/3f9a") (lit "OHS Policy.docx"))))
           (MkWorld [] [] [] [lit "tmp/3f9a"] [])
           (MkFile (lit "tmp/3f9a") (lit "OHS Policy.docx")) 2%Z);
    solve [reflexivity | lia].
Defined.

Lemma first_recognized_spec (libs : Libs) (localPath : text) (langs : list text) :
  first_recognized libs localPath langs = [] \/
  (long_enough (first_recognized libs localPath langs) = true /\
   exists lang, In lang langs /\
                recognize libs localPath lang
                = Ok (first_recognized libs localPath langs)).
Proof.
  induction langs as [|lang langs IH]; [left; reflexivity|].
  cbn [first_recognized].
  destruct (recognize libs localPath lang) as [t|err] eqn:E.
  - destruct (long_enough t) eqn:El.
    + right. split; [exact El|]. exists lang. split; [left; reflexivity | exact E].
    + destruct IH as [IH|(IH & l & Hl & Hr)]; [left; exact IH|].
      right. split; [exact IH|]. exists l. split; [right; exact Hl | exact Hr].
  - destruct IH as [IH|(IH & l & Hl & Hr)]; [left; exact IH|].
    right. split; [exact IH|]. exists l. split; [right; exact Hl | exact Hr].
Qed.

Lemma image_not_pdf (ext : text) : is_image ext = true -> text_eqb ext (lit "pdf") = false.
Proof.
  unfold is_image. cbn [existsb]. intros H.
  repeat (apply orb_true_iff in H; destruct H as [H|H]);
    try discriminate H; apply text_eqb_eq in H; subst ext; reflexivity.
Qed.

Lemma first_recognized_first (libs : Libs) (localPath : text) (langs : list text) :
  (forallb (fun lang => negb (qualifies libs localPath lang)) langs = true /\
   first_recognized libs localPath langs = []) \/
  (exists before lang after,
      langs = before ++ lang :: after /\
      forallb (fun l => negb (qualifies libs localPath l)) before = true /\
      qualifies libs localPath lang = true /\
      recognize libs localPath lang = Ok (first_recognized libs localPath langs)).
Proof.
  induction langs as [|lang langs IH]; [left; split; reflexivity|].
  cbn [first_recognized forallb]. unfold qualifies at 1.
  destruct (recognize libs localPath lang) as [t|err] eqn:E.
  - destruct (long_enough t) eqn:El.
    + right. exists [], lang, langs. unfold qualifies. rewrite E.
      repeat split; auto.
    + destruct IH as [[Hall Hnil]|(before & l & after & -> & Hb & Hq & Hr)].
      * left. split; [exact Hall | exact Hnil].
      * right. exists (lang :: before), l, after. cbn [forallb app].
        unfold qualifies at 1. rewrite E, El. repeat split; auto.
  - destruct IH as [[Hall Hnil]|(before & l & after & -> & Hb & Hq & Hr)].
    + left. split; [exact Hall | exact Hnil].
    + right. exists (lang :: before), l, after. cbn [forallb app].
      unfold qualifies at 1. rewrite E. repeat split; auto.
Qed.

(** X23. Images (jpg, jpeg, png). Text extraction of server.js never throws,
    even when every call of the recogniser throws: it tries the languages
    tha, ind, vie, eng in that order and returns the output of the first
    one that does not throw and gives more than 10 characters after
    trimming, or the empty text when none does; so an image with 10
    characters of text or fewer is unreadable in server.js. Text extraction
    of part_001 calls the recogniser once, for the requested language, and
    returns its output whatever its length, or the empty text when the
    call throws. *)
Theorem server_image_text_threshold (libs : Libs) (localPath originalName : text) :
  is_image (extension originalName) = true ->
  let langs := [lit "tha"; lit "ind"; lit "vie"; lit "eng"] in
  ((forallb (fun lang => negb (qualifies libs localPath lang)) langs = true /\
    server_extractText libs localPath originalName = Ok []) \/
   (exists before lang after t,
       langs = before ++ lang :: after /\
       forallb (fun l => negb (qualifies libs localPath l)) before = true /\
       recognize libs localPath lang = Ok t /\
       10 < len (trim t) /\
       server_extractText libs localPath originalName = Ok t)) /\
  (forall ocrLang,
      part001_extractText libs localPath originalName ocrLang
      = match recognize libs localPath ocrLang with
        | Ok u => Ok u
        | Err _ => Ok []
        end).
Proof.
  intros Hi. cbv zeta. unfold server_extractText, part001_extractText. cbv zeta.
  rewrite (image_not_pdf _ Hi), Hi. split; [|reflexivity].
  destruct (first_recognized_first libs localPath
              [lit "tha"; lit "ind"; lit "vie"; lit "eng"])
    as [[Hall Hnil]|(before & lang & after & Hl & Hb & Hq & Hr)].
  - left. split; [exact Hall | rewrite Hnil; reflexivity].
  - right. exists before, lang, after, (first_recognized libs localPath
                                        [lit "tha"; lit "ind"; lit "vie"; lit "eng"]).
    split; [exact Hl|]. split; [exact Hb|]. split; [exact Hr|]. split; [|reflexivity].
    unfold qualifies in Hq. rewrite Hr in Hq. unfold long_enough in Hq.
    apply andb_true_iff in Hq. destruct Hq as [_ Hq]. apply Nat.ltb_lt in Hq. exact Hq.
Qed.

Lemma server_image_text_threshold_witness :
  let libs := MkLibs (fun _ => Err []) (fun _ => Err [])
                     (fun _ lang => if text_eqb lang (lit "eng")
                                    then Ok (lit "Acme Corp OHS policy")
                                    else if text_eqb lang (lit "ind") then Err (lit "no data")
                                    else Ok (lit "x")) in
  server_extractText libs (lit "tmp/3f9a") (lit "scan.PNG") = Ok (lit "Acme Corp OHS policy") /\
  part001_extractText libs (lit "tmp/3f9a") (lit "scan.PNG") (lit "ind") = Ok [] /\
  part001_extractText libs (lit "tmp/3f9a") (lit "scan.PNG") (lit "tha") = Ok (lit "x").
Proof.
  cbv zeta.
  pose proof (@server_image_text_threshold
                (MkLibs (fun _ => Err []) (fun _ => Err [])
                        (fun _ lang => if text_eqb lang (lit "eng")
                                       then Ok (lit "Acme Corp OHS policy")
                                       else if text_eqb lang (lit "ind") then Err (lit "no data")
                                       else Ok (lit "x")))
                (lit "tmp/3f9a") (lit "scan.PNG") eq_refl) as [_ Hp].
  split; [reflexivity|]. split; [exact (Hp (lit "ind")) | exact (Hp (lit "tha"))].
Defined.

(** ** The two session summaries side by side *)

Lemma read_feedback_is_summary_feedback (env : Env) (aiText : text) :
  Part001.read_feedback env aiText = fst (Server.read_summary env aiText).
Proof.
  unfold Part001.read_feedback, Server.read_summary.
  destruct (search Server.braceRegex aiText) as [m|].
  - destruct (JSON_parse env _); reflexivity.
  - destruct (search Server.scoreFieldRegex aiText); reflexivity.
Qed.

(** X24. The session summaries of server.js and part_001 side by side. For
    a subject with stored answers each sends one prompt: the same listing
    of the answers, closed by a request for under 5 sentences in server.js
    and for under 10 in part_001, so the two prompts differ. Neither
    changes the answers. When the model gives both prompts the same reply,
    the two services answer with the same status and the same feedback and
    store the same summary text, and only the score can differ. For a
    subject without stored answers both answer 422 without calling the
    model or changing a table. *)
Theorem session_summaries_side_by_side (env : Env) (e : text) (w : World) :
  let s := run (Server.session_summary env e) w in
  let p := run (Part001.session_summary env e) w in
  let prompt5 := summaryPrompt env (answers_of e w) ++ summary_request (lit "5") in
  let prompt10 := summaryPrompt env (answers_of e w) ++ summary_request (lit "10") in
  (answers_of e w <> [] ->
   groq_calls (final s) = prompt5 :: groq_calls w /\
   groq_calls (final p) = prompt10 :: groq_calls w /\
   prompt5 <> prompt10 /\
   (callGroq env prompt5 = callGroq env prompt10 ->
    option_map status (response s) = option_map status (response p) /\
    response_field "feedback" s = response_field "feedback" p /\
    map gemini_summary (sessions (final s)) = map gemini_summary (sessions (final p)))) /\
  answers (final s) = answers w /\
  answers (final p) = answers w /\
  (answers_of e w = [] ->
   option_map status (response s) = Some 422 /\
   option_map status (response p) = Some 422 /\
   untouched w s /\ untouched w p).
Proof.
  cbv zeta. unfold untouched.
  unfold_handler Server.session_summary. unfold_handler Part001.session_summary.
  destruct (answers_of e w) as [|r rows].
  - split; [intros Hne; contradiction|]. cbn. repeat split; reflexivity.
  - split; [intros _|split; [|split; [|intros Hnil; discriminate Hnil]]].
    + split; [|split; [|split]].
      * destruct (callGroq env (_ ++ summary_request (lit "5"))) as [aiText|err];
          [|reflexivity].
        cbv beta iota. destruct (Server.read_summary env aiText). reflexivity.
      * destruct (callGroq env (_ ++ summary_request (lit "10"))); reflexivity.
      * intros Heq. apply app_inv_head in Heq. vm_compute in Heq. discriminate Heq.
      * intros Hsame. rewrite Hsame.
        destruct (callGroq env (_ ++ summary_request (lit "10"))) as [aiText|err].
        -- cbv beta iota. rewrite read_feedback_is_summary_feedback.
           destruct (Server.read_summary env aiText) as [feedback score].
           cbn [fst world sent sessions set_sessions answers groq_calls response status
                response_field get body field String.eqb Ascii.eqb Bool.eqb option_map].
           repeat split; try reflexivity.
           rewrite !map_map. apply map_ext. intros x.
           destruct (text_eqb (s_email x) e); reflexivity.
        -- cbn. repeat split; reflexivity.
    + destruct (callGroq env (_ ++ summary_request (lit "5"))) as [aiText|err];
        [|reflexivity].
      cbv beta iota. destruct (Server.read_summary env aiText). reflexivity.
    + destruct (callGroq env (_ ++ summary_request (lit "10"))); reflexivity.
Qed.

(** ** Unique keys *)

Lemma review_step_keys (env : Env) (req : CheckRequest) (q : Z) (prompt : text) (w : World) :
  keys_unique (answers w) ->
  keys_unique (answers (final (review_step env req q prompt w))).
Proof.
  intros H. unfold review_step. destruct (callGroq env prompt); [|exact H].
  cbn [final answered answers set_answers after_prompt].
  rewrite upsert_feedback_as_row. apply keys_unique_upsert_row; auto.
Qed.

(** X25. The handlers that write the answers by upsert or by update keep
    the rule of one row per (email, question number): when the keys are
    unique before a run of the review handler, of save-answer (in either
    service), of skip-requirement or of a manual override, they are unique
    after it. ([/api/missing-feedback], which adds a row by a plain insert,
    is not one of them.) *)
Theorem answers_keys_stay_unique
    (env : Env) (refusal : text) (req : CheckRequest) (areq : AnswerRequest)
    (mreq : ManualScoreRequest) (w : World) (audit_logs : list AuditEntry) :
  keys_unique (answers w) ->
  keys_unique (answers (final (run (Server.check_file env req) w))) /\
  keys_unique (answers (final (run (Part001.check_file env req) w))) /\
  keys_unique (answers (final (run (server_save_answer env refusal areq) w))) /\
  keys_unique (answers (final (run (part001_save_answer env refusal areq) w))) /\
  keys_unique (answers (final (run (skip_requirement env areq) w))) /\
  keys_unique (answers (snd (fst (manual_score env mreq w audit_logs)))).
Proof.
  intros H.
  assert (Hu : forall f, keys_unique (answers (after_unlink f w))) by (intros f; exact H).
  split; [|split; [|split; [|split; [|split]]]].
  - rewrite server_check_file_run. unfold server_check_file_paths.
    repeat match goal with
           | |- keys_unique (answers (final (answered _ _ _))) => exact H
           | |- keys_unique (answers (final (review_step _ _ _ _ _))) =>
               apply review_step_keys, Hu
           | |- keys_unique (answers (final (if ?b then _ else _))) => destruct b
           | |- keys_unique (answers (final (match ?x with _ => _ end))) => destruct x
           end.
  - rewrite part001_check_file_run. unfold part001_check_file_paths. cbv zeta.
    repeat match goal with
           | |- keys_unique (answers (final (answered _ _ _))) => exact H
           | |- keys_unique (answers (final (review_step _ _ _ _ _))) =>
               apply review_step_keys, Hu
           | |- keys_unique (answers (final (if ?b then _ else _))) => destruct b
           | |- keys_unique (answers (final (match ?x with _ => _ end))) => destruct x
           end.
  - unfold_handler server_save_answer.
    destruct (negb (present (sa_email areq)) || negb (present (sa_questionNumber areq))
              || negb (present (sa_answer areq))); [exact H|].
    destruct (parseInt (sa_questionNumber areq)); [|exact H].
    cbn [world sent answers set_answers]. apply keys_unique_upsert_row; auto.
  - unfold_handler part001_save_answer.
    destruct (negb (present (sa_email areq)) || negb (present (sa_questionNumber areq))
              || negb (present (sa_answer areq))); [exact H|].
    destruct (parseInt (sa_questionNumber areq)); [|exact H].
    cbn [world sent answers set_answers]. apply keys_unique_upsert_row; auto.
  - unfold_handler skip_requirement.
    destruct (negb (present (sa_email areq)) || negb (present (sa_questionNumber areq)));
      [exact H|].
    destruct (parseInt (sa_questionNumber areq)); [|exact H].
    cbn [world sent answers set_answers]. apply keys_unique_upsert_row; auto.
  - unfold manual_score, keys_unique in *. cbn [fst snd set_answers answers].
    rewrite map_map. erewrite map_ext; [exact H|].
    intros r. destruct (same_key (ms_email mreq) (ms_questionNumber mreq) r); reflexivity.
Qed.

Lemma answers_keys_stay_unique_witness :
  keys_unique
    (answers (final (run (skip_requirement
                            (MkEnv (fun _ _ _ => Err []) (fun _ => Err []) (fun _ => Err [])
                                   [] (fun _ _ _ _ => []) (fun _ => []))
                            (MkAnswerRequest (Some subject) (Some (lit "2")) None))
                         (stored [lit "Score: Robust (3/5)"; lit "Score: Warning (2/5)"])))).
Proof.
  apply (@answers_keys_stay_unique
           (MkEnv (fun _ _ _ => Err []) (fun _ => Err []) (fun _ => Err [])
                  [] (fun _ _ _ _ => []) (fun _ => []))
           [] (upload "2") (MkAnswerRequest (Some subject) (Some (lit "2")) None)
           (MkManualScoreRequest subject 2 [] [] [])
           (stored [lit "Score: Robust (3/5)"; lit "Score: Warning (2/5)"]) []).
  unfold keys_unique. cbn.
  repeat constructor; cbn; intros H;
    repeat (destruct H as [H|H]; [discriminate H|]); exact H.
Defined.

(** ** The detected company name *)

Lemma trimStart_solid (p : text) (c : ascii) :
  isSpace c = false -> exists p', trimStart (p ++ [c]) = p' ++ [c].
Proof.
  intros Hc. induction p as [|x p IH]; cbn [app trimStart].
  - rewrite Hc. exists []. reflexivity.
  - destruct (isSpace x); [exact IH | exists (x :: p); reflexivity].
Qed.

Lemma trimStart_head (s : text) (c : ascii) (s' : text) :
  trimStart s = c :: s' -> isSpace c = false.
Proof.
  induction s as [|x s IH]; cbn [trimStart]; [discriminate|].
  destruct (isSpace x) eqn:E; [exact IH|].
  intros H. injection H as <- _. exact E.
Qed.

Lemma trim_solid (s : text) : ends_solid s -> trim s <> [] /\ ends_solid (trim s).
Proof.
  intros (p & c & -> & Hc). unfold trim, trimEnd.
  destruct (@trimStart_solid p c Hc) as (p' & ->).
  rewrite rev_app_distr. cbn [rev app trimStart]. rewrite Hc.
  change (c :: rev p') with (rev [c] ++ rev p'). rewrite <- rev_app_distr, rev_involutive.
  split; [destruct p'; discriminate | exists p', c; auto].
Qed.

Lemma trimmed_ends_solid (x : text) : trim x <> [] -> ends_solid (trim x).
Proof.
  unfold trim, trimEnd. intros H.
  destruct (trimStart (rev (trimStart x))) as [|c u] eqn:E; [contradiction|].
  apply trimStart_head in E. cbn [rev]. exists (rev u), c. auto.
Qed.

Lemma ends_solid_suffix (a l : text) : ends_solid (a ++ l) -> l <> [] -> ends_solid l.
Proof.
  intros (p & c & E & Hc) Hl.
  destruct (exists_last Hl) as (l' & x & ->).
  rewrite app_assoc in E. apply app_inj_tail in E. destruct E as [_ ->].
  exists l', c. auto.
Qed.

Lemma search_from_suffix (r : regex) (s : text) (m : rmatch_result) :
  search r s = Some m -> exists pre t, s = pre ++ t /\ match_here r t = Some m.
Proof.
  induction s as [|c s IH]; cbn [search]; intros H.
  - destruct (match_here r []) eqn:E; [|discriminate H].
    injection H as ->. exists [], []. auto.
  - destruct (match_here r (c :: s)) eqn:E.
    + injection H as ->. exists [], (c :: s). auto.
    + destruct (IH H) as (pre & t & -> & Ht). exists (c :: pre), t. auto.
Qed.

Lemma label_capture (line : text) (m : rmatch_result) :
  search labelRegex line = Some m ->
  exists a l, line = a ++ l /\ l <> [] /\ group m 1 = Some l.
Proof.
  intros H. apply search_from_suffix in H. destruct H as (pre & t & -> & H).
  change labelRegex
    with (fold_right Seq
            (Seq (Group 1 (Rep dot 1 None)) (Seq Eol Eps))
            [Alt (str_i "company name") (str_i "supplier");
             Chr (fun c => is_char ":" c || is_char "-" c); star isSpace]) in H.
  apply capture_of_match in H; [|reflexivity|reflexivity].
  destruct H as (a & l & b & cs & -> & Hb & Hg & s' & n' & cs' & Hp).
  cbn [accepts] in Hb, Hp.
  destruct Hb as (l' & _ & _ & En & Hlo & _).
  destruct Hp as (s1 & n1 & cs1 & (Hnil & _) & _). subst b.
  rewrite app_nil_r. exists (pre ++ a), l. rewrite app_assoc.
  split; [reflexivity|]. split; [|exact Hg].
  intros ->. cbn [List.length] in En. lia.
Qed.

Lemma first_some_found (A B : Type) (f : A -> option B) (l : list A) (y : B) :
  first_some f l = Some y -> exists x, In x l /\ f x = Some y.
Proof.
  induction l as [|x l IH]; cbn [first_some]; [discriminate|].
  destruct (f x) as [z|] eqn:E.
  - intros H. injection H as ->. exists x. split; [left; reflexivity | exact E].
  - intros H. destruct (IH H) as (x' & Hin & Hx). exists x'. split; [right|]; assumption.
Qed.

Lemma long_line_solid (docText line : text) :
  In line (long_lines docText) -> line <> [] /\ ends_solid line.
Proof.
  unfold long_lines. intros H. apply filter_In in H. destruct H as [Hin Hlen].
  apply in_map_iff in Hin. destruct Hin as (x & <- & _).
  apply Nat.ltb_lt in Hlen. unfold len in Hlen.
  assert (Hne : trim x <> []) by (intros E; rewrite E in Hlen; simpl in Hlen; lia).
  split; [exact Hne | apply trimmed_ends_solid, Hne].
Qed.

(** X26. The company name server.js detects is empty exactly when the
    document has no line of more than two characters (after trimming):
    a labelled name is never blank, and every fallback is such a line. So a
    readable document as short as "OK" is answered with an empty detected
    name to confirm. *)
Theorem extractCompanyName_empty_iff (docText : text) :
  extractCompanyName docText = [] <-> long_lines docText = [].
Proof.
  unfold extractCompanyName. fold (long_lines docText).
  split.
  - intros H. destruct (long_lines docText) as [|l0 ls] eqn:El; [reflexivity|].
    exfalso.
    assert (Hall : forall line, In line (l0 :: ls) -> line <> [] /\ ends_solid line).
    { intros line Hin. apply (@long_line_solid docText). rewrite El. exact Hin. }
    revert H.
    destruct (first_some _ (l0 :: ls)) as [name|] eqn:E1.
    + apply first_some_found in E1. destruct E1 as (line & Hin & Hf).
      destruct (search labelRegex line) as [m|] eqn:Es; [|discriminate Hf].
      destruct (label_capture _ Es) as (a & g & Hline & Hg & Hm).
      rewrite Hm in Hf. destruct (nonempty g); [|discriminate Hf].
      injection Hf as <-.
      destruct (Hall line Hin) as [_ Hsolid]. rewrite Hline in Hsolid.
      apply ends_solid_suffix in Hsolid; [|exact Hg].
      apply trim_solid in Hsolid. apply Hsolid.
    + destruct (find (test_anchored entityRegex) (l0 :: ls)) as [line|] eqn:E2.
      * apply find_some in E2. apply (Hall line), E2.
      * match goal with
        | |- context [find ?p (l0 :: ls)] => destruct (find p (l0 :: ls)) as [line|] eqn:E3
        end.
        -- apply find_some in E3. apply (Hall line), E3.
        -- cbn [hd]. apply (Hall l0). left. reflexivity.
  - intros ->. reflexivity.
Qed.

(** ** The greedy path of the matcher *)

Section GreedyPath.
Variable R : Type.

Lemma literal_match (w l s : text) (n : nat) (cs : captures)
    (k : text -> nat -> captures -> option R) :
  spells w l = true ->
  rmatch (seqs (map (fun x => Chr (ci x)) w)) (l ++ s) n cs k = k s (n + List.length l) cs.
Proof.
  revert l n. induction w as [|x w IH]; intros [|c l] n H; try discriminate H.
  - cbn. rewrite Nat.add_0_r. reflexivity.
  - cbn [spells] in H. apply andb_true_iff in H. destruct H as [Hc Hl].
    cbn [map seqs fold_right rmatch app]. rewrite Hc.
    change (fold_right Seq Eps (map (fun x => Chr (ci x)) w))
      with (seqs (map (fun x => Chr (ci x)) w)).
    rewrite IH by exact Hl. cbn [List.length]. f_equal. lia.
Qed.

Lemma exact_match (w s : text) (n : nat) (cs : captures)
    (k : text -> nat -> captures -> option R) :
  rmatch (seqs (map (fun x => Chr (is_char x)) w)) (w ++ s) n cs k
  = k s (n + List.length w) cs.
Proof.
  revert n. induction w as [|x w IH]; intros n.
  - cbn. rewrite Nat.add_0_r. reflexivity.
  - cbn [map seqs fold_right rmatch app]. unfold is_char at 1. rewrite Ascii.eqb_refl.
    change (fold_right Seq Eps (map (fun x => Chr (is_char x)) w))
      with (seqs (map (fun x => Chr (is_char x)) w)).
    rewrite IH. cbn [List.length]. f_equal. lia.
Qed.

Lemma chr_match (p : ascii -> bool) (c : ascii) (s : text) (n : nat) (cs : captures)
    (k : text -> nat -> captures -> option R) :
  p c = true -> rmatch (Chr p) (c :: s) n cs k = k s (S n) cs.
Proof. intros H. cbn [rmatch]. rewrite H. reflexivity. Qed.

Lemma alt_left (r1 r2 : regex) (s : text) (n : nat) (cs : captures)
    (k : text -> nat -> captures -> option R) (x : R) :
  rmatch r1 s n cs k = Some x -> rmatch (Alt r1 r2) s n cs k = Some x.
Proof. intros H. cbn [rmatch]. rewrite H. reflexivity. Qed.

Lemma alt_right (r1 r2 : regex) (s : text) (n : nat) (cs : captures)
    (k : text -> nat -> captures -> option R) :
  rmatch r1 s n cs k = None -> rmatch (Alt r1 r2) s n cs k = rmatch r2 s n cs k.
Proof. intros H. cbn [rmatch]. rewrite H. reflexivity. Qed.

(** A greedy repetition over a run [l] of the class that ends where the
    class ends: no split point gives a match. *)
Lemma greedy_none (p : ascii -> bool) (l s : text) (k : text -> nat -> option R) :
  forallb p l = true ->
  head_fails p s = true ->
  forall lo n,
    (forall j, lo <= j <= List.length l -> k (skipn j (l ++ s)) (n + j) = None) ->
    rep_greedy p lo None (l ++ s) n k = None.
Proof.
  intros Hl Hs. induction l as [|c l IH]; intros lo n H.
  - cbn [app]. specialize (H 0). cbn [List.length skipn app] in H.
    rewrite Nat.add_0_r in H.
    destruct s as [|c s]; cbn [rep_greedy].
    + destruct (lo =? 0) eqn:E; [|reflexivity]. apply Nat.eqb_eq in E. apply H. lia.
    + cbn [head_fails] in Hs. apply negb_true_iff in Hs. rewrite Hs. cbn [andb].
      destruct (lo =? 0) eqn:E; [|reflexivity]. apply Nat.eqb_eq in E. apply H. lia.
  - cbn [forallb] in Hl. apply andb_true_iff in Hl. destruct Hl as [Hc Hl].
    cbn [app rep_greedy]. rewrite Hc. cbn [andb option_map].
    rewrite (IH Hl).
    + destruct (lo =? 0) eqn:E; [|reflexivity]. apply Nat.eqb_eq in E.
      specialize (H 0). cbn [skipn app] in H. rewrite Nat.add_0_r in H. apply H.
      cbn [List.length]. lia.
    + intros j Hj. specialize (H (S j)). cbn [skipn app List.length] in H.
      replace (S n + j) with (n + S j) by lia. apply H. lia.
Qed.

(** The split point the repetition settles on: the longest one at which
    the rest of the pattern matches. *)
Lemma greedy_at (p : ascii -> bool) (l s : text) (k : text -> nat -> option R) (x : R) :
  forallb p l = true ->
  head_fails p s = true ->
  forall lo n i,
    lo <= i <= List.length l ->
    (forall j, i < j <= List.length l -> k (skipn j (l ++ s)) (n + j) = None) ->
    k (skipn i (l ++ s)) (n + i) = Some x ->
    rep_greedy p lo None (l ++ s) n k = Some x.
Proof.
  intros Hl Hs. induction l as [|c l IH]; intros lo n i Hi Hfail Hx.
  - cbn [List.length] in Hi. assert (i = 0) by lia. subst i.
    assert (lo = 0) by lia. subst lo.
    cbn [skipn app] in *. rewrite Nat.add_0_r in Hx.
    destruct s as [|c s]; cbn [rep_greedy Nat.eqb]; [exact Hx|].
    cbn [head_fails] in Hs. apply negb_true_iff in Hs. rewrite Hs. exact Hx.
  - cbn [forallb] in Hl. apply andb_true_iff in Hl. destruct Hl as [Hc Hl].
    cbn [app rep_greedy]. rewrite Hc. cbn [andb option_map].
    destruct i as [|i].
    + assert (lo = 0) by lia. subst lo. cbn [pred Nat.eqb].
      rewrite (@greedy_none p l s k Hl Hs).
      * cbn [skipn app] in Hx. rewrite Nat.add_0_r in Hx. exact Hx.
      * intros j Hj. specialize (Hfail (S j)). cbn [skipn app List.length] in Hfail.
        replace (S n + j) with (n + S j) by lia. apply Hfail. lia.
    + rewrite (IH Hl (pred lo) (S n) i).
      * reflexivity.
      * cbn [List.length] in Hi. lia.
      * intros j Hj. specialize (Hfail (S j)). cbn [skipn app List.length] in Hfail.
        replace (S n + j) with (n + S j) by lia. apply Hfail. lia.
      * cbn [skipn app] in Hx. replace (S n + i) with (n + S i) by lia. exact Hx.
Qed.

Lemma skipn_run (l s : text) : skipn (List.length l) (l ++ s) = s.
Proof. induction l; simpl; auto. Qed.

(** The repetition takes the whole run when the rest of the pattern matches
    after it. *)
Lemma greedy_whole (p : ascii -> bool) (l s : text) (k : text -> nat -> option R) (x : R)
    (lo n : nat) :
  forallb p l = true ->
  head_fails p s = true ->
  lo <= List.length l ->
  k s (n + List.length l) = Some x ->
  rep_greedy p lo None (l ++ s) n k = Some x.
Proof.
  intros Hl Hs Hlo Hx. apply (@greedy_at p l s k x Hl Hs lo n (List.length l)).
  - lia.
  - intros j Hj. lia.
  - rewrite skipn_run. exact Hx.
Qed.
End GreedyPath.

Lemma slice_mid (total A l B : text) (a b : nat) :
  total = A ++ l ++ B -> a = List.length A -> b = a + List.length l ->
  slice total (a, b) = l.
Proof. intros -> -> ->. apply slice_span. Qed.

Lemma ci_other (x y c : ascii) : ci x c = true -> ci y c = Ascii.eqb (upper x) (upper y).
Proof. unfold ci. intros H. apply Ascii.eqb_eq in H. rewrite H. reflexivity. Qed.


Lemma spells_starts (w l s : text) : spells w l = true -> startsWith_i w (l ++ s) = true.
Proof.
  revert l. induction w as [|x w IH]; intros [|c l] H; try discriminate H; [reflexivity|].
  cbn [spells] in H. apply andb_true_iff in H. destruct H as [Hc H].
  cbn [app startsWith_i]. rewrite Hc. apply IH, H.
Qed.

Lemma letter_not_space (x c : ascii) :
  isAlpha x = true -> ci x c = true -> isSpace c = false.
Proof.
  intros Hx Hc. unfold ci in Hc. apply Ascii.eqb_eq in Hc.
  destruct (isSpace c) eqn:E; [|reflexivity]. exfalso.
  destruct c as [[] [] [] [] [] [] [] []]; try discriminate E;
    destruct x as [[] [] [] [] [] [] [] []]; try discriminate Hx; discriminate Hc.
Qed.

(** A band name starts with a letter, its own. *)
Lemma band_name_head (b : ScoreBand) (name : text) :
  spells (bandName b) name = true ->
  exists c name', name = c :: name' /\ isSpace c = false /\
                  ci (hd SP (bandName b)) c = true.
Proof.
  intros H. destruct name as [|c name]; [destruct b; discriminate H|].
  exists c, name. split; [reflexivity|].
  assert (Hc : ci (hd SP (bandName b)) c = true).
  { destruct b; cbn [bandName lit list_ascii_of_string spells hd] in *;
      apply andb_true_iff in H; destruct H as [H _]; exact H. }
  split; [|exact Hc].
  apply (@letter_not_space (hd SP (bandName b)) c); [destruct b; reflexivity | exact Hc].
Qed.

Lemma band_alternatives (R : Type) (b : ScoreBand) (name s : text) (n : nat) (cs : captures)
    (k : text -> nat -> captures -> option R) (x : R) :
  spells (bandName b) name = true ->
  k s (n + List.length name) cs = Some x ->
  rmatch (alts [str_i "Stretch"; str_i "Commitment"; str_i "Robust";
                str_i "Warning"; str_i "Offtrack"]) (name ++ s) n cs k = Some x.
Proof.
  intros Hb Hx.
  destruct (band_name_head b name Hb) as (c & name' & Hn & _ & Hc).
  assert (Hmiss : forall w : string,
             Ascii.eqb (upper (hd SP (bandName b))) (upper (hd SP (lit w))) = false ->
             lit w <> [] ->
             rmatch (str_i w) (name ++ s) n cs k = None).
  { intros w Hw Hne. unfold str_i. apply literal_mismatch.
    destruct (lit w) as [|y w'] eqn:Ew; [contradiction|]. subst name.
    cbn [app startsWith_i hd] in *. rewrite (@ci_other _ y _ Hc), Hw. reflexivity. }
  assert (Hhit : rmatch (str_i (string_of_list_ascii (bandName b))) (name ++ s) n cs k
                 = Some x).
  { unfold str_i, lit. rewrite list_ascii_of_string_of_list_ascii.
    rewrite literal_match by exact Hb. exact Hx. }
  unfold alts. cbn [fold_right].
  destruct b; cbn [bandName] in Hhit.
  - do 4 (rewrite alt_right by (apply Hmiss; [reflexivity | discriminate])).
    apply alt_left. exact Hhit.
  - do 3 (rewrite alt_right by (apply Hmiss; [reflexivity | discriminate])).
    apply alt_left. exact Hhit.
  - do 2 (rewrite alt_right by (apply Hmiss; [reflexivity | discriminate])).
    apply alt_left. exact Hhit.
  - do 1 (rewrite alt_right by (apply Hmiss; [reflexivity | discriminate])).
    apply alt_left. exact Hhit.
  - apply alt_left. exact Hhit.
Qed.

(** A score line is matched, and the second group holds its digit. *)
Lemma score_line_matched (s : text) (d : ascii) :
  opens_score_line s d ->
  exists m, match_here scoreRegex s = Some m /\ group m 2 = Some [d].
Proof.
  intros (marker & ws1 & name & ws2 & rest & b & Hs & Hm & Hw1 & Hn & Hw2 & Hd).
  destruct (band_name_head b name Hn) as (c & name' & Hname & Hc & _).
  eexists. split.
  - unfold match_here, scoreRegex.
    change (seqs (?a :: ?l)) with (Seq a (seqs l)).
    cbn [rmatch]. unfold str_i at 1. rewrite Hs at 1.
    rewrite literal_match by exact Hm.
    change (seqs (?a :: ?l)) with (Seq a (seqs l)). cbn [rmatch star].
    apply greedy_whole; [exact Hw1 | | lia |].
    { rewrite Hname. cbn [app head_fails]. rewrite Hc. reflexivity. }
    change (seqs (?a :: ?l)) with (Seq a (seqs l)). cbn [rmatch].
    apply band_alternatives with (b := b); [exact Hn|].
    change (seqs (?a :: ?l)) with (Seq a (seqs l)). cbn [rmatch star].
    apply greedy_whole; [exact Hw2 | reflexivity | lia |].
    change (seqs (?a :: ?l)) with (Seq a (seqs l)). cbn [rmatch].
    cbn [lit list_ascii_of_string app chr].
    rewrite chr_match by reflexivity.
    change (seqs (?a :: ?l)) with (Seq a (seqs l)). cbn [rmatch].
    rewrite Hd.
    change (seqs (?a :: ?l)) with (Seq a (seqs l)). cbn [rmatch].
    unfold str.
    change ("/"%char :: "5"%char :: ")"%char :: rest) with (lit "/5)" ++ rest).
    rewrite exact_match. cbn [seqs fold_right rmatch]. reflexivity.
  - unfold group. cbn [m_groups lookup map fst snd Nat.eqb].
    f_equal.
    apply (@slice_mid s (marker ++ ws1 ++ name ++ ws2 ++ lit "(") [d] (lit "/5)" ++ rest)).
    + rewrite Hs. rewrite <- !app_assoc. reflexivity.
    + rewrite !length_app. cbn [List.length lit list_ascii_of_string]. lia.
    + cbn [List.length]. lia.
Qed.

Lemma accepts_literal_i (w : text) :
  forall s n cs s' n' cs',
    accepts (seqs (map (fun x => Chr (ci x)) w)) s n cs s' n' cs' ->
    exists l, s = l ++ s' /\ spells w l = true /\ n' = n + List.length l /\ cs' = cs.
Proof.
  induction w as [|x w IH]; intros s n cs s' n' cs' H.
  - cbn in H. destruct H as (-> & -> & ->). exists []. cbn. auto.
  - cbn [map seqs fold_right accepts] in H.
    destruct H as (s1 & n1 & cs1 & (c & -> & Hc & -> & ->) & H).
    apply IH in H. destruct H as (l & -> & Hl & -> & ->).
    exists (c :: l). cbn [app spells List.length]. rewrite Hc, Hl.
    repeat split; auto; lia.
Qed.

Lemma accepts_literal (w : text) :
  forall s n cs s' n' cs',
    accepts (seqs (map (fun x => Chr (is_char x)) w)) s n cs s' n' cs' ->
    s = w ++ s' /\ n' = n + List.length w /\ cs' = cs.
Proof.
  induction w as [|x w IH]; intros s n cs s' n' cs' H.
  - cbn in H. destruct H as (-> & -> & ->). cbn. auto.
  - cbn [map seqs fold_right accepts] in H.
    destruct H as (s1 & n1 & cs1 & (c & -> & Hc & -> & ->) & H).
    apply IH in H. destruct H as (-> & -> & ->).
    apply is_char_eq in Hc. subst c. cbn [app List.length]. repeat split; auto; lia.
Qed.

Lemma accepts_band (name_s : text) :
  forall n cs s' n' cs',
    accepts (alts [str_i "Stretch"; str_i "Commitment"; str_i "Robust";
                   str_i "Warning"; str_i "Offtrack"]) name_s n cs s' n' cs' ->
    exists name b, name_s = name ++ s' /\ spells (bandName b) name = true /\
                   n' = n + List.length name /\ cs' = cs.
Proof.
  intros n cs s' n' cs' H. unfold alts in H. cbn [fold_right accepts] in H.
  destruct H as [H|[H|[H|[H|[H|H]]]]];
    try (apply accepts_literal_i in H; destruct H as (l & Hs & Hl & Hn & Hc)).
  - exists l, Stretch. auto.
  - exists l, Commitment. auto.
  - exists l, Robust. auto.
  - exists l, Warning. auto.
  - exists l, Offtrack. auto.
  - destruct H as (c & _ & Hc & _). discriminate Hc.
Qed.

(** What is matched is a score line, and the second group holds its
    digit. *)
Lemma matched_score_line (s : text) (m : rmatch_result) :
  match_here scoreRegex s = Some m ->
  exists d, opens_score_line s d /\ group m 2 = Some [d].
Proof.
  intros H. unfold match_here in H. apply rmatch_sound in H.
  destruct H as (s' & n' & cs' & H & Hm). injection Hm as <-.
  unfold scoreRegex in H.
  repeat (change (seqs (?a :: ?l)) with (Seq a (seqs l)) in H; cbn [accepts] in H).
  destruct H as (s1 & n1 & cs1 & H1 & s2 & n2 & cs2 & H2 & s3 & n3 & cs3 & H3
                 & s4 & n4 & cs4 & H4 & s5 & n5 & cs5 & H5 & s6 & n6 & cs6 & H6
                 & s7 & n7 & cs7 & H7 & H8).
  unfold str_i in H1. apply accepts_literal_i in H1.
  destruct H1 as (marker & -> & Hmarker & -> & ->).
  unfold star in H2, H4. cbn [accepts] in H2, H4.
  destruct H2 as (ws1 & -> & Hw1 & -> & _ & _ & ->).
  destruct H3 as (cs3' & H3 & ->). apply accepts_band in H3.
  destruct H3 as (name & b & -> & Hname & -> & ->).
  destruct H4 as (ws2 & -> & Hw2 & -> & _ & _ & ->).
  unfold chr in H5. cbn [accepts] in H5.
  destruct H5 as (c & -> & Hc & -> & ->). apply is_char_eq in Hc. subst c.
  destruct H6 as (cs6' & (d & -> & Hd & -> & ->) & ->).
  unfold str in H7. apply accepts_literal in H7. destruct H7 as (-> & -> & ->).
  cbn [seqs fold_right accepts] in H8. destruct H8 as (-> & -> & ->).
  exists d. split.
  - exists marker, ws1, name, ws2, s7, b. repeat split; auto.
  - unfold group. cbn [m_groups lookup map fst snd Nat.eqb]. f_equal.
    apply (@slice_mid _ (marker ++ ws1 ++ name ++ ws2 ++ lit "(") [d] (lit "/5)" ++ s7)).
    + rewrite <- !app_assoc. reflexivity.
    + rewrite !length_app. cbn [List.length lit list_ascii_of_string]. lia.
    + cbn [List.length]. lia.
Qed.

(** The leftmost match: where it starts, nothing before it matches. *)
Lemma search_first (r : regex) (t : text) (m : rmatch_result) :
  search r t = Some m ->
  exists pre s, t = pre ++ s /\ match_here r s = Some m /\
                forall j, j < List.length pre -> match_here r (skipn j t) = None.
Proof.
  induction t as [|c t IH]; cbn [search]; intros H.
  - destruct (match_here r []) eqn:E; [|discriminate H]. injection H as ->.
    exists [], []. repeat split; auto. intros j Hj. cbn in Hj. lia.
  - destruct (match_here r (c :: t)) eqn:E.
    + injection H as ->. exists [], (c :: t). repeat split; auto.
      intros j Hj. cbn in Hj. lia.
    + destruct (IH H) as (pre & s & -> & Hs & Hpre).
      exists (c :: pre), s. repeat split; auto.
      intros [|j] Hj; [exact E|]. cbn [skipn]. apply Hpre. cbn in Hj. lia.
Qed.

Lemma search_skips (r : regex) (pre s : text) :
  (forall j, j < List.length pre -> match_here r (skipn j (pre ++ s)) = None) ->
  search r (pre ++ s) = search r s.
Proof.
  induction pre as [|c pre IH]; intros H; [reflexivity|].
  pose proof (H 0 ltac:(cbn; lia)) as H0. cbn [skipn app] in H0.
  cbn [app search]. rewrite H0.
  apply IH. intros j Hj. apply (H (S j)). cbn. lia.
Qed.

Lemma no_line_no_match (s : text) :
  (forall d, ~ opens_score_line s d) -> match_here scoreRegex s = None.
Proof.
  intros H. destruct (match_here scoreRegex s) as [m|] eqn:E; [|reflexivity].
  apply matched_score_line in E. destruct E as (d & Hd & _). destruct (H d Hd).
Qed.

Lemma score_line_starts_marker (s : text) (d : ascii) :
  opens_score_line s d -> starts_marker s = true.
Proof.
  intros (marker & ws1 & name & ws2 & rest & b & -> & Hm & _).
  unfold starts_marker. apply spells_starts. exact Hm.
Qed.

(** ** The first score line of a reply *)

Lemma search_here (r : regex) (s : text) (m : rmatch_result) :
  match_here r s = Some m -> search r s = Some m.
Proof. intros H. destruct s; cbn [search]; rewrite H; reflexivity. Qed.

Lemma marker_free_no_line (n : nat) (t : text) :
  marker_free_before n t = true ->
  forall j d, j < n -> ~ opens_score_line (skipn j t) d.
Proof.
  intros H j d Hj Hl. apply score_line_starts_marker in Hl.
  rewrite (@marker_free_before_spec n t H j Hj) in Hl. discriminate Hl.
Qed.

(** C2, amended. The score read off a reply is the digit of its first score
    line, whatever the band named before it. A score line is the marker
    "Score:", one of the five canonical band names and "(<digit>/5)", the
    marker and the name in any letter case, with any white space after the
    marker and after the name. For a reply in which no score line starts
    earlier, a score line with the digit [d] gives the score [d], equal to
    the weight of the band or not; a score is read off such a line only,
    so a line that carries a digit but no band name gives null. *)
Theorem parseScore_takes_the_digit :
  (forall (pre line : text) (d : ascii),
      opens_score_line line d ->
      (forall j d', j < List.length pre -> ~ opens_score_line (skipn j (pre ++ line)) d') ->
      parseScore (pre ++ line) = Some (digit_val d)) /\
  (forall (feedback : text) (z : Z),
      parseScore feedback = Some z ->
      exists pre line d,
        feedback = pre ++ line /\
        opens_score_line line d /\
        (forall j d', j < List.length pre -> ~ opens_score_line (skipn j feedback) d') /\
        z = digit_val d) /\
  (forall d : ascii,
      isDigit d = true ->
      parseScore (lit "Score: (" ++ [d] ++ lit "/5)") = None /\
      parseScore (lit "Score: " ++ [d] ++ lit "/5") = None).
Proof.
  split; [|split].
  - intros pre line d Hl Hpre. unfold parseScore.
    rewrite search_skips
      by (intros j Hj; apply no_line_no_match; intros d'; apply Hpre; exact Hj).
    destruct (score_line_matched Hl) as (m & Hm & Hg).
    rewrite (search_here _ _ Hm), Hg. reflexivity.
  - intros feedback z H. unfold parseScore in H.
    destruct (search scoreRegex feedback) as [m|] eqn:E; [|discriminate H].
    apply search_first in E. destruct E as (pre & s & -> & Hs & Hpre).
    destruct (matched_score_line _ Hs) as (d & Hd & Hg). rewrite Hg in H.
    injection H as <-. exists pre, s, d. split; [reflexivity|]. split; [exact Hd|].
    split.
    + intros j d' Hj Hl. destruct (score_line_matched Hl) as (m' & Hm' & _).
      rewrite (Hpre j Hj) in Hm'. discriminate Hm'.
    + reflexivity.
  - intros d Hd. destruct d as [[] [] [] [] [] [] [] []];
      try discriminate Hd; vm_compute; auto.
Qed.

Lemma parseScore_takes_the_digit_witness :
  parseScore (lit "Summary: limited communication. "
              ++ lit "SCORE:  robust" ++ [LF] ++ lit "(5/5) Recommendation: none.")
  = Some 5%Z.
Proof.
  apply (proj1 parseScore_takes_the_digit
           (lit "Summary: limited communication. ")
           (lit "SCORE:  robust" ++ [LF] ++ lit "(5/5) Recommendation: none.") "5"%char).
  - exists (lit "SCORE:"), (lit "  "), (lit "robust"), [LF], (lit " Recommendation: none."),
      Robust.
    repeat split; reflexivity.
  - apply marker_free_no_line. reflexivity.
Defined.

(** ** What the scan reads at a marker *)













Lemma digits3_digits (t : text) : forallb isDigit (digits3 t) = true.
Proof.
  unfold digits3.
  destruct t as [|c1 [|c2 [|c3 [|c4 t]]]]; cbn [takeWhile];
    repeat match goal with
           | |- context [if isDigit ?c then _ else _] => destruct (isDigit c) eqn:?
           end; cbn [firstn forallb]; rewrite ?andb_true_r;
    repeat match goal with
           | H : isDigit _ = true |- _ => rewrite H; clear H
           end; reflexivity.
Qed.

Lemma digits3_none (t : text) : head_fails isDigit t = true -> digits3 t = [].
Proof.
  unfold digits3. destruct t as [|c t]; [reflexivity|]. cbn [head_fails takeWhile].
  intros H. apply negb_true_iff in H. rewrite H. reflexivity.
Qed.


Section AtAMarker.
Variable total : text.

End AtAMarker.

Section ReadingTheNumber.
Variable total : text.






End ReadingTheNumber.





Section ReadingAfterAWord.
Variable total : text.






End ReadingAfterAWord.






Section TheWholePattern.
Variable total : text.



End TheWholePattern.


(** ** No marker starts inside a match *)
















(** ** The scan, marker by marker *)




